(** * Scribe: transcript model, speaker naming and renderers

    A shallow embedding of the transcript side of the [scribe] command-line
    tool ([src/scribe/models.py], [src/scribe/utils.py], the naming helpers
    and the [batch] command of [src/scribe/cli.py], and the response parser of
    [src/scribe/transcription/deepgram_provider.py]), with the properties of
    the specification stated and settled against it.

    Conventions.
    - A Python [int] is a [Z]; a [str] is a [string]; a [list] is a [list].
    - A Python [float] holding a finite value is a rational [Q].  The only
      float operations of the code are [//] and [%] by the integer constants
      3600 and 60, comparison with 0 and [int(...)]; on finite floats below
      2^53 they are exact, so they are modelled by their exact rational
      counterparts.
    - A [dict] keyed by integers is a [gmap Z _]; [sorted(d)] is the
      ascending list of its keys.
    - Operations that can raise return a [result]. *)

From Stdlib Require Import ZArith QArith Qround String Ascii DecimalString List Lia.
From Stdlib Require DecimalZ DecimalPos.
From stdpp Require Import gmap strings list fin_maps sorting.
Import ListNotations.

Set Warnings "-clear-no-such-hyp".

Local Open Scope string_scope.
Local Open Scope Z_scope.

(** ** Python primitives *)

Module Py.

(** The exceptions the modelled code can raise. *)
Inductive exn : Type :=
  | IndexError
  | KeyError
  | AttributeError
  | MarkupError
  | EOFError.

Inductive result (A : Type) : Type :=
  | Ok (a : A)
  | Raise (e : exn).
Arguments Ok {A} a.
Arguments Raise {A} e.

#[global] Instance result_ret : MRet result := fun _ a => Ok a.

#[global] Instance result_bind : MBind result := fun _ _ k m =>
  match m with
  | Ok a => k a
  | Raise e => Raise e
  end.

(** [[f(x) for x in xs]] where [f] can raise: left to right, the first
    exception aborts the comprehension. *)
Fixpoint mapM {A B : Type} (f : A -> result B) (xs : list A) : result (list B) :=
  match xs with
  | [] => Ok []
  | x :: xs' => y ← f x; ys ← mapM f xs'; Ok (y :: ys)
  end.

(** The newline character and ["\n"]. *)
Definition nl : string := String (ascii_of_nat 10) EmptyString.

(** [sep.join(parts)]. *)
Definition join (sep : string) (parts : list string) : string :=
  String.concat sep parts.

(** [str(n)] for an integer. *)
Definition str (n : Z) : string := NilZero.string_of_int (Z.to_int n).

(** [f"{n:02d}"]: decimal, sign first, zero-filled to a width of two. *)
Definition fmt_02d (n : Z) : string :=
  if n <? 0 then "-" ++ str (- n)
  else if n <? 10 then "0" ++ str n
  else str n.

(** [len(xs)] as a Python integer. *)
Definition len {A : Type} (xs : list A) : Z := Z.of_nat (length xs).

(** [range(n)]. *)
Definition range (n : Z) : list Z := map Z.of_nat (seq 0 (Z.to_nat n)).

(** [xs[i]]: a negative index counts from the end, and an index outside the
    list raises [IndexError]. *)
Definition getitem {A : Type} (xs : list A) (i : Z) : result A :=
  let j := if i <? 0 then len xs + i else i in
  if j <? 0 then Raise IndexError
  else match xs !! Z.to_nat j with
       | Some x => Ok x
       | None => Raise IndexError
       end.

(** [d[k]] on a dict. *)
Definition dict_getitem {V : Type} (d : gmap Z V) (k : Z) : result V :=
  match d !! k with
  | Some v => Ok v
  | None => Raise KeyError
  end.

(** [d.get(k, dflt)]. *)
Definition dict_get {V : Type} (d : gmap Z V) (k : Z) (dflt : V) : V :=
  match d !! k with
  | Some v => v
  | None => dflt
  end.

(** [sorted(d)] on a dict with integer keys, and [sorted(s)] on a set. *)
Definition sorted_keys {V : Type} (d : gmap Z V) : list Z :=
  merge_sort Z.le (elements (dom d)).

Definition sorted_set (s : gset Z) : list Z :=
  merge_sort Z.le (elements s).

(** [s or t] on strings: [s] unless it is empty. *)
Definition str_or (s t : string) : string :=
  match s with
  | EmptyString => t
  | _ => s
  end.

(** Float arithmetic on finite values, see the conventions above. *)
Definition floordiv (x : Q) (d : Z) : Q := inject_Z (Qfloor (x / inject_Z d)).

Definition fmod (x : Q) (d : Z) : Q :=
  (x - inject_Z d * inject_Z (Qfloor (x / inject_Z d)))%Q.

(** [int(x)]: truncation towards zero. *)
Definition int (x : Q) : Z :=
  if Qle_bool 0 x then Qfloor x else Qceiling x.

End Py.

Import Py.

(** ** [utils.format_timestamp] *)

Definition format_timestamp (seconds : Q) : string :=
  let hours := Py.int (floordiv seconds 3600) in
  let minutes := Py.int (floordiv (fmod seconds 3600) 60) in
  let secs := Py.int (fmod seconds 60) in
  if 0 <? hours
  then fmt_02d hours ++ ":" ++ fmt_02d minutes ++ ":" ++ fmt_02d secs
  else fmt_02d minutes ++ ":" ++ fmt_02d secs.

(** ** [models.py] *)

Record Utterance : Type := mkUtterance {
  speaker : Z;
  speaker_name : string;
  start : Q;
  end_ : Q;
  text : string
}.

Record Transcript : Type := mkTranscript {
  source_file : string;
  duration : Q;
  speakers : list string;
  utterances : list Utterance;
  raw_text : string
}.

Record Summary : Type := mkSummary {
  title : string;
  summary : string;
  key_points : list string;
  action_items : list string
}.

Record ActionItem : Type := mkActionItem {
  description : string;
  source : string;
  priority : string
}.

(** The value of an utterance after [utt.speaker_name = name]: every other
    field is kept. *)
Definition with_speaker_name (utt : Utterance) (name : string) : Utterance :=
  {| speaker := speaker utt;
     speaker_name := name;
     start := start utt;
     end_ := end_ utt;
     text := text utt |}.

(** [transcript.model_copy(update={"speakers": s, "utterances": us})]. *)
Definition model_copy_update
    (transcript : Transcript) (s : list string) (us : list Utterance) : Transcript :=
  {| source_file := source_file transcript;
     duration := duration transcript;
     speakers := s;
     utterances := us;
     raw_text := raw_text transcript |}.

(** [f"Speaker {i}"]. *)
Definition speaker_label (i : Z) : string := "Speaker " ++ str i.

(** [lines.append(s)] on the list under construction. *)
Definition append (lines : list string) (s : string) : list string :=
  (lines ++ [s])%list.

(** [for x in xs: lines.append(f(x))]. *)
Definition append_each {A : Type} (f : A -> string) (xs : list A) (lines : list string)
    : list string :=
  fold_left (fun acc x => append acc (f x)) xs lines.

(** ** [utils.py]: the renderers *)

Section Renderers.

(** [Path(p).stem] of the standard library. *)
Variable stem : string -> string.

(** The line of one utterance in the markdown transcript section. *)
Definition markdown_utterance_line (utt : Utterance) : string :=
  let ts := format_timestamp (start utt) in
  let name := str_or (speaker_name utt) (speaker_label (speaker utt)) in
  "**[" ++ ts ++ "] " ++ name ++ ":** " ++ text utt ++ nl.

(** The summary block of [format_transcript_markdown]. *)
Definition markdown_summary (s : Summary) (lines : list string) : list string :=
  let lines :=
    match title s with
    | EmptyString => lines
    | _ => append lines ("## " ++ title s ++ nl)
    end in
  let lines :=
    match summary s with
    | EmptyString => lines
    | _ => append lines (summary s ++ nl)
    end in
  let lines :=
    match key_points s with
    | [] => lines
    | _ =>
        let lines := append lines ("### Key Points" ++ nl) in
        let lines := append_each (fun point => "- " ++ point) (key_points s) lines in
        append lines ""
    end in
  match action_items s with
  | [] => lines
  | _ =>
      let lines := append lines ("### Action Items" ++ nl) in
      let lines := append_each (fun item => "- [ ] " ++ item) (action_items s) lines in
      append lines ""
  end.

(** The list [lines] of [format_transcript_markdown] before it is joined. *)
Definition format_transcript_markdown_lines
    (transcript : Transcript) (summary : option Summary) : list string :=
  let lines := [] in
  let source_name := stem (source_file transcript) in
  let lines := append lines ("# Transcript: " ++ source_name ++ nl) in
  let lines :=
    if negb (Qle_bool (duration transcript) 0)
    then append lines ("**Duration:** " ++ format_timestamp (duration transcript) ++ nl)
    else lines in
  let lines :=
    match speakers transcript with
    | [] => lines
    | _ => append lines ("**Speakers:** " ++ join ", " (speakers transcript) ++ nl)
    end in
  let lines :=
    match summary with
    | Some s => markdown_summary s lines
    | None => lines
    end in
  let lines := append lines ("---" ++ nl) in
  let lines := append lines ("## Transcript" ++ nl) in
  match utterances transcript with
  | [] => append lines (raw_text transcript)
  | _ => append_each markdown_utterance_line (utterances transcript) lines
  end.

Definition format_transcript_markdown
    (transcript : Transcript) (summary : option Summary) : string :=
  join nl (format_transcript_markdown_lines transcript summary).

(** The line of one utterance in the plain-text rendering. *)
Definition text_utterance_line (utt : Utterance) : string :=
  let ts := format_timestamp (start utt) in
  let name := str_or (speaker_name utt) (speaker_label (speaker utt)) in
  "[" ++ ts ++ "] " ++ name ++ ": " ++ text utt.

Definition format_transcript_text_lines (transcript : Transcript) : list string :=
  let lines := [] in
  match utterances transcript with
  | [] => append lines (raw_text transcript)
  | _ => append_each text_utterance_line (utterances transcript) lines
  end.

Definition format_transcript_text (transcript : Transcript) : string :=
  join nl (format_transcript_text_lines transcript).

(** One checkbox line of the weekly digest. *)
Definition weekly_item_line (item : ActionItem) : string :=
  let src :=
    match source item with
    | EmptyString => ""
    | _ => " *(from " ++ source item ++ ")*"
    end in
  "- [ ] " ++ description item ++ src.

(** One of the three [if group: ...] blocks of [format_weekly_todo_markdown]. *)
Definition weekly_block (heading : string) (group : list ActionItem) (lines : list string)
    : list string :=
  match group with
  | [] => lines
  | _ =>
      let lines := append lines (heading ++ nl) in
      let lines := append_each weekly_item_line group lines in
      append lines ""
  end.

Definition has_priority (p : string) (a : ActionItem) : bool :=
  String.eqb (priority a) p.

Definition format_weekly_todo_markdown_lines
    (action_items : list ActionItem) (week : string) : list string :=
  let lines := [] in
  let title :=
    match week with
    | EmptyString => "# Weekly To-Do"
    | _ => "# Weekly To-Do — Week " ++ week
    end in
  let lines := append lines (title ++ nl) in
  let high := List.filter (has_priority "high") action_items in
  let normal := List.filter (has_priority "normal") action_items in
  let low := List.filter (has_priority "low") action_items in
  let lines := weekly_block "## High Priority" high lines in
  let lines := weekly_block "## Tasks" normal lines in
  let lines := weekly_block "## Low Priority" low lines in
  lines.

Definition format_weekly_todo_markdown
    (action_items : list ActionItem) (week : string) : string :=
  join nl (format_weekly_todo_markdown_lines action_items week).

End Renderers.

(** The names bound at the top level of [utils.py] (its imports and its
    functions, in order), the parameters of [format_transcript_markdown], and
    the names [cli.py] imports from [utils]. *)
Definition utils_namespace : list string :=
  [ "Path"; "ActionItem"; "CourseDiff"; "Summary"; "Transcript";
    "format_timestamp"; "ensure_output_dir"; "format_transcript_markdown";
    "format_transcript_text"; "format_course_diff_markdown";
    "format_weekly_todo_markdown" ].

Definition format_transcript_markdown_parameters : list string :=
  [ "transcript"; "summary" ].

Definition cli_imports_from_utils : list string :=
  [ "ensure_output_dir"; "format_course_diff_markdown"; "format_transcript_markdown";
    "format_transcript_raw_text"; "format_transcript_text";
    "format_weekly_todo_markdown" ].

(** ** [cli.py]: speaker naming *)

(** The dict comprehension
    [{i: names[i] if i < len(names) else f"Speaker {i}" for i in range(n)}]. *)
Fixpoint name_map_of (names : list string) (indices : list Z) (acc : gmap Z string)
    : result (gmap Z string) :=
  match indices with
  | [] => Ok acc
  | i :: rest =>
      v ← (if i <? len names then getitem names i else Ok (speaker_label i));
      name_map_of names rest (<[i := v]> acc)
  end.

(** The loop that copies every utterance and sets the copy's [speaker_name]
    from [name_map], with the fallback label for an index the map does not
    have.  On values, [utt.model_copy()] is [utt] itself; the version with
    object identities is [Heap.rename_loop] below. *)
Definition rename_utterances (name_map : gmap Z string) (us : list Utterance)
    : list Utterance :=
  fold_left
    (fun new_utterances utt =>
       let utt_copy :=
         with_speaker_name utt
           (dict_get name_map (speaker utt) (speaker_label (speaker utt))) in
       (new_utterances ++ [utt_copy])%list)
    us [].

Definition _assign_speaker_names (transcript : Transcript) (names : list string)
    : result Transcript :=
  name_map ← name_map_of names (range (len (speakers transcript))) ∅;
  new_speakers ← mapM (dict_getitem name_map) (sorted_keys name_map);
  let new_utterances := rename_utterances name_map (utterances transcript) in
  Ok (model_copy_update transcript new_speakers new_utterances).

Section Prompt.

(** [Prompt.ask(prompt, default=d)]: what the operator answers to a prompt,
    the default included when nothing is typed; [None] when the input ends
    and the call raises [EOFError]. *)
Variable ask : string -> string -> option string.

(** Whether [console.print] raises [MarkupError] on a text: it reads square
    brackets as markup, and a closing tag without an opening one is an
    error. *)
Variable markup_error : string -> bool.













End Prompt.

(** ** [deepgram_provider.py]: the response parser *)

(** The parts of the provider's reply that [_parse_response] reads.  An
    absent attribute is [None]. *)
Record RespUtterance : Type := mkRespUtterance {
  ru_speaker : option Z;
  ru_start : Q;
  ru_end : Q;
  ru_transcript : string
}.

Record Response : Type := mkResponse {
  alt_transcript : option string;
  metadata_duration : option Q;
  results_utterances : option (list RespUtterance)
}.

(** One round of the loop over [resp_utterances]. *)
Definition parse_step (acc : gset Z * list Utterance) (utt : RespUtterance)
    : gset Z * list Utterance :=
  let '(speaker_set, utterances) := acc in
  let speaker_idx := default 0 (ru_speaker utt) in
  ({[speaker_idx]} ∪ speaker_set,
   (utterances ++
      [ {| speaker := speaker_idx;
           speaker_name := "";
           start := ru_start utt;
           end_ := ru_end utt;
           text := ru_transcript utt |} ])%list).

(** The loop: the set of speaker indices and the utterances, in order. *)
Definition parse_utterances (rus : list RespUtterance) : gset Z * list Utterance :=
  fold_left parse_step rus (∅, []).

Definition _parse_response (response : Response) (source_file : string) : Transcript :=
  let raw_text := str_or (default "" (alt_transcript response)) "" in
  let duration := default 0%Q (metadata_duration response) in
  let '(speaker_set, utterances) :=
    match results_utterances response with
    | Some (u :: us) => parse_utterances (u :: us)
    | _ => (∅, [])
    end in
  let speakers := map speaker_label (sorted_set speaker_set) in
  {| source_file := source_file;
     duration := duration;
     speakers := speakers;
     utterances := utterances;
     raw_text := raw_text |}.

(** ** Commands: console output, exits and exceptions

    A function of [cli.py] that is a command either returns, or leaves
    through [typer.Exit(code)], or through an exception that nothing
    catches (named by its class).  On its way it leaves a log of what it
    did. *)

Inductive outcome (A : Type) : Type :=
  | Done (a : A)
  | Exit (code : Z)
  | Uncaught (e : string).
Arguments Done {A} a.
Arguments Exit {A} code.
Arguments Uncaught {A} e.

Definition cmd (E A : Type) : Type := outcome A * list E.

#[global] Instance cmd_ret {E : Type} : MRet (cmd E) := fun _ a => (Done a, []).

#[global] Instance cmd_bind {E : Type} : MBind (cmd E) := fun _ _ k m =>
  match m with
  | (Done a, log) => let '(o, log') := k a in (o, (log ++ log')%list)
  | (Exit code, log) => (Exit code, log)
  | (Uncaught e, log) => (Uncaught e, log)
  end.

Definition emit {E : Type} (e : E) : cmd E unit := (Done tt, [e]).

Definition raise_exit {E A : Type} (code : Z) : cmd E A := (Exit code, []).

Definition raise_uncaught {E A : Type} (e : string) : cmd E A := (Uncaught e, []).

(** [try: body finally: cleanup]: the cleanup runs however the body ends,
    and the way the body ended stands unless the cleanup itself raises. *)
Definition try_finally {E A : Type} (body : cmd E A) (cleanup : cmd E unit) : cmd E A :=
  let '(o, log) := body in
  let '(c, log') := cleanup in
  (match c with
   | Done _ => o
   | Exit code => Exit code
   | Uncaught e => Uncaught e
   end, (log ++ log')%list).

(** The exit code of the process for the way a command ended. *)
Definition exit_code {A : Type} (o : outcome A) : Z :=
  match o with
  | Done _ => 0
  | Exit code => code
  | Uncaught _ => 1
  end.

(** Loading the module [cli.py]: [from .utils import (...)] raises
    [ImportError] unless [utils.py] binds every imported name. *)
Definition cli_module_loads : bool :=
  forallb (fun imported => bool_decide (imported ∈ utils_namespace)) cli_imports_from_utils.

(** A command of the shipped program: the module is loaded, then the
    function of the command runs.  The result is the exit code of the
    process and what the function did; the [ImportError] of the module ends
    the process with code 1 before any function runs. *)
Definition run_command {E : Type} (body : cmd E unit) : Z * list E :=
  if cli_module_loads then (exit_code (fst body), snd body) else (1, []).

(** ** [cli.py]: the [batch] command *)

Section Batch.

(** A decoded JSON record of a sidecar file. *)
Variable RawItem : Type.

(** [Path.name], [Path.parent] and [dir / name] of the standard library. *)
Variable path_name : string -> string.
Variable path_parent : string -> string.
Variable path_join : string -> string -> string.

(** Whether [console.print] raises [MarkupError] on a text. *)
Variable markup_error : string -> bool.

(** What reading a sidecar file gives: its items; or a [JSONDecodeError] or
    an [OSError], which the loop catches, with its message; or another
    exception, such as the [UnicodeDecodeError] of [read_text], which it
    does not catch. *)
Inductive read_outcome : Type :=
  | ReadItems (items : list RawItem)
  | ReadCaught (e : string)
  | ReadRaised (e : string).

(** What the function reads from its environment: the file system, whether
    [mkdir] and [write_text] raise [OSError] on a path, and the reply of
    the consolidation collaborator (a left value is the exception raised
    instead). *)
Record World : Type := mkWorld {
  path_exists : string -> bool;
  glob : string -> string -> list string;
  read_json : string -> read_outcome;
  mkdir_error : string -> bool;
  write_error : string -> bool;
  collaborator : list RawItem -> string -> string + list ActionItem
}.

(** What the function does to its environment, in order. *)
Inductive event : Type :=
  | Print (msg : string)
  | Consolidate (items : list RawItem) (week : string)
  | Mkdir (path : string)
  | WriteText (path : string) (content : string).

Definition print (text : string) : cmd event unit :=
  if markup_error text then raise_uncaught "MarkupError" else emit (Print text).

Definition mkdir (w : World) (path : string) : cmd event unit :=
  if mkdir_error w path then raise_uncaught "OSError" else emit (Mkdir path).

Definition write_text (w : World) (path content : string) : cmd event unit :=
  if write_error w path then raise_uncaught "OSError" else emit (WriteText path content).

(** [sorted(paths)] for paths of one directory. *)
Definition sorted_paths (paths : list string) : list string :=
  merge_sort (fun a b => Is_true (String.leb a b)) paths.

(** [analyzer.batch_action_items]: no request is sent for an empty list. *)
Definition batch_action_items (w : World) (all_items : list RawItem) (week : string)
    : cmd event (list ActionItem) :=
  match all_items with
  | [] => mret []
  | _ =>
      _ ← emit (Consolidate all_items week);
      match collaborator w all_items week with
      | inr consolidated => mret consolidated
      | inl e => raise_uncaught e
      end
  end.

(** The loop that reads the sidecar files: a file whose reading raises
    [JSONDecodeError] or [OSError] is skipped with a message, any other
    exception leaves the loop and the function. *)
Fixpoint collect_items (w : World) (json_files : list string) (all_items : list RawItem)
    : cmd event (list RawItem) :=
  match json_files with
  | [] => mret all_items
  | jf :: rest =>
      match read_json w jf with
      | ReadItems items =>
          _ ← print ("  " ++ path_name jf ++ ": " ++ str (len items) ++ " items");
          collect_items w rest (all_items ++ items)%list
      | ReadCaught e =>
          _ ← print ("  [yellow]Skipping " ++ path_name jf ++ ": " ++ e ++ "[/yellow]");
          collect_items w rest all_items
      | ReadRaised e => raise_uncaught e
      end
  end.

(** For the statements about the loop: the items a file contributes, and
    the line printed for it. *)
Definition read_items (w : World) (jf : string) : list RawItem :=
  match read_json w jf with
  | ReadItems items => items
  | _ => []
  end.

Definition read_line (w : World) (jf : string) : string :=
  match read_json w jf with
  | ReadItems items => "  " ++ path_name jf ++ ": " ++ str (len items) ++ " items"
  | ReadCaught e => "  [yellow]Skipping " ++ path_name jf ++ ": " ++ e ++ "[/yellow]"
  | ReadRaised _ => ""
  end.

(** The nested function [_run] of [batch]: consolidate the items and write
    the digest. *)
Definition _run (w : World) (all_items : list RawItem) (output : option string)
    (week : string) : cmd event unit :=
  _ ← print "  Consolidating action items...";
  consolidated ← batch_action_items w all_items week;
  _ ← print ("  [green]" ++ str (len consolidated) ++ " consolidated items.[/green]");
  out_file ←
    match output with
    | Some o => mret o
    | None =>
        _ ← mkdir w "output";
        let label :=
          match week with
          | EmptyString => ""
          | _ => "_week" ++ week
          end in
        mret (path_join "output" ("weekly_todo" ++ label ++ ".md"))
    end;
  _ ← mkdir w (path_parent out_file);
  _ ← write_text w out_file (format_weekly_todo_markdown consolidated week);
  print (nl ++ "[bold green]Output:[/bold green] " ++ out_file).

(** The function [batch]; the logging set-up has no effect of its own and is
    left out. *)
Definition batch (w : World) (directory : string) (output : option string) (week : string)
    : cmd event unit :=
  if negb (path_exists w directory)
  then
    _ ← print ("[red]Directory not found: " ++ directory ++ "[/red]");
    raise_exit 1
  else
    let json_files := sorted_paths (glob w directory "*_actions.json") in
    match json_files with
    | [] =>
        _ ← print "[yellow]No action JSON files found in directory.[/yellow]";
        raise_exit 0
    | _ =>
        _ ← print ("[bold]Found " ++ str (len json_files) ++ " action file(s).[/bold]");
        all_items ← collect_items w json_files [];
        match all_items with
        | [] =>
            _ ← print "[yellow]No action items found.[/yellow]";
            raise_exit 0
        | _ => _run w all_items output week
        end
    end.

(** The command [batch] of the shipped program. *)
Definition batch_command (w : World) (directory : string) (output : option string)
    (week : string) : Z * list event :=
  run_command (batch w directory output week).



End Batch.

(** ** Speaker naming on objects

    [_assign_speaker_names] once more, with the identities of the objects it
    touches: a heap of [Utterance] and [Transcript] objects, where
    [model_copy] allocates and an attribute assignment updates in place. *)

Module Heap.

Record TranscriptObj : Type := mkTranscriptObj {
  o_source_file : string;
  o_duration : Q;
  o_speakers : list string;
  o_utterances : list positive;
  o_raw_text : string
}.

Inductive obj : Type :=
  | UtteranceObj (u : Utterance)
  | TranscriptRef (t : TranscriptObj).

Definition alloc (h : gmap positive obj) (o : obj) : positive * gmap positive obj :=
  let l := fresh (dom h) in (l, <[l := o]> h).

Definition get_utterance (h : gmap positive obj) (l : positive) : result Utterance :=
  match h !! l with
  | Some (UtteranceObj u) => Ok u
  | _ => Raise AttributeError
  end.

Definition get_transcript (h : gmap positive obj) (l : positive) : result TranscriptObj :=
  match h !! l with
  | Some (TranscriptRef t) => Ok t
  | _ => Raise AttributeError
  end.

(** [utt.model_copy()]: a new object with the fields of [utt]. *)
Definition utterance_model_copy (h : gmap positive obj) (l : positive)
    : result (positive * gmap positive obj) :=
  u ← get_utterance h l;
  Ok (alloc h (UtteranceObj u)).

(** [utt.speaker_name = name]: the object at [l] is updated in place. *)
Definition set_speaker_name (h : gmap positive obj) (l : positive) (name : string)
    : result (gmap positive obj) :=
  u ← get_utterance h l;
  Ok (<[l := UtteranceObj (with_speaker_name u name)]> h).

Fixpoint rename_loop (name_map : gmap Z string) (us : list positive)
    (new_utterances : list positive) (h : gmap positive obj)
    : result (list positive * gmap positive obj) :=
  match us with
  | [] => Ok (new_utterances, h)
  | utt :: rest =>
      '(utt_copy, h) ← utterance_model_copy h utt;
      u ← get_utterance h utt;
      h ← set_speaker_name h utt_copy
            (dict_get name_map (speaker u) (speaker_label (speaker u)));
      rename_loop name_map rest (new_utterances ++ [utt_copy])%list h
  end.

Definition _assign_speaker_names
    (h : gmap positive obj) (transcript : positive) (names : list string)
    : result (positive * gmap positive obj) :=
  t ← get_transcript h transcript;
  name_map ← name_map_of names (range (len (o_speakers t))) ∅;
  new_speakers ← mapM (dict_getitem name_map) (sorted_keys name_map);
  '(new_utterances, h) ← rename_loop name_map (o_utterances t) [] h;
  Ok (alloc h (TranscriptRef
                 {| o_source_file := o_source_file t;
                    o_duration := o_duration t;
                    o_speakers := new_speakers;
                    o_utterances := new_utterances;
                    o_raw_text := o_raw_text t |})).

(** The value a transcript object stands for. *)
Definition read_utterances (h : gmap positive obj) (ls : list positive)
    : result (list Utterance) :=
  mapM (get_utterance h) ls.

Definition read_transcript (h : gmap positive obj) (l : positive) : result Transcript :=
  t ← get_transcript h l;
  us ← read_utterances h (o_utterances t);
  Ok {| source_file := o_source_file t;
        duration := o_duration t;
        speakers := o_speakers t;
        utterances := us;
        raw_text := o_raw_text t |}.

End Heap.

(** ** [utils.py]: the course-diff renderer *)

Module Diff.

Record CourseDiff : Type := mkCourseDiff {
  additions : list string;
  omissions : list string;
  combined_text : string;
  action_items : list ActionItem
}.

End Diff.

(** One checkbox line of the course diff: the priority is shown unless it
    is ["normal"]. *)
Definition diff_item_line (item : ActionItem) : string :=
  let priority_tag :=
    if negb (String.eqb (priority item) "normal")
    then " [" ++ priority item ++ "]"
    else "" in
  "- [ ] " ++ description item ++ priority_tag.

(** One of the two bullet sections of [format_course_diff_markdown]. *)
Definition diff_bullets (heading : string) (items : list string) (lines : list string)
    : list string :=
  match items with
  | [] => lines
  | _ =>
      let lines := append lines (heading ++ nl) in
      let lines := append_each (fun item => "- " ++ item) items lines in
      append lines ""
  end.

Definition format_course_diff_markdown_lines (diff : Diff.CourseDiff) (week : string)
    : list string :=
  let lines := [] in
  let title :=
    match week with
    | EmptyString => "# Course Diff"
    | _ => "# Course Diff — Week " ++ week
    end in
  let lines := append lines (title ++ nl) in
  let lines := diff_bullets "## In Video Only (Additions)" (Diff.additions diff) lines in
  let lines := diff_bullets "## In Text Only (Omissions)" (Diff.omissions diff) lines in
  match Diff.action_items diff with
  | [] => lines
  | _ =>
      let lines := append lines ("## Action Items" ++ nl) in
      let lines := append_each diff_item_line (Diff.action_items diff) lines in
      append lines ""
  end.

Definition format_course_diff_markdown (diff : Diff.CourseDiff) (week : string) : string :=
  join nl (format_course_diff_markdown_lines diff week).

(** ** [cli.py]: the text handed to the summarizer and to the diff

    [format_transcript_text(transcript) if transcript.utterances else
    transcript.raw_text], as in [transcribe] and in [course]. *)
Definition transcript_text_of (transcript : Transcript) : string :=
  match utterances transcript with
  | [] => raw_text transcript
  | _ => format_transcript_text transcript
  end.

(** ** [analyzer.py] and [summarizer.py]: the reply of the model

    [s.split(sep)] for a separator of one character: the pieces between the
    occurrences of [sep], at least one. *)
Fixpoint split (sep : ascii) (s : string) : list string :=
  match s with
  | EmptyString => [""]
  | String c rest =>
      if Ascii.eqb c sep then "" :: split sep rest
      else match split sep rest with
           | piece :: pieces => String c piece :: pieces
           | [] => [String c ""]
           end
  end.

(** [xs[1:-1]]. *)
Definition slice_1_m1 {A : Type} (xs : list A) : list A := removelast (tl xs).

(** The treatment of a reply after [cleaned = response_text.strip()], the
    same in [summarize_transcript], [diff_course_content] and
    [batch_action_items]: a reply that starts with a code fence loses its
    first and its last line. *)
Definition strip_code_fence (cleaned : string) : string :=
  if String.prefix "```" cleaned
  then
    let lines := split (ascii_of_nat 10) cleaned in
    join nl (slice_1_m1 lines)
  else cleaned.

(** ** [audio.py] *)

Section Audio.

(** [Path.suffix], [Path.stem], [Path.name] and [dir / name] of the standard
    library, [str.lower] and [str.strip]. *)
Variable suffix : string -> string.
Variable stem : string -> string.
Variable name : string -> string.
Variable path_join : string -> string -> string.
Variable lower : string -> string.
Variable strip : string -> string.

Definition VIDEO_EXTENSIONS : gset string :=
  {[ ".mp4"; ".mov"; ".mkv"; ".webm"; ".avi" ]}.

Definition AUDIO_EXTENSIONS : gset string :=
  {[ ".m4a"; ".mp3"; ".wav"; ".ogg"; ".flac"; ".aac"; ".wma" ]}.

Definition is_video_file (path : string) : bool :=
  bool_decide (lower (suffix path) ∈ VIDEO_EXTENSIONS).

Definition is_audio_file (path : string) : bool :=
  bool_decide (lower (suffix path) ∈ AUDIO_EXTENSIONS).

(** The tools of the machine: [shutil.which], [subprocess.run] with its
    return code, standard output and standard error, and
    [tempfile.mkdtemp]. *)
Record Tools : Type := mkTools {
  which : string -> bool;
  run : list string -> Z * string * string;
  mkdtemp : string -> string
}.

(** What the functions do to the machine, in order. *)
Inductive tool_event : Type :=
  | Run (args : list string)
  | Mkdtemp (prefix : string) (created : string).

Definition ffprobe_args (file_path : string) : list string :=
  [ "ffprobe"; "-i"; file_path; "-show_streams"; "-select_streams"; "a";
    "-loglevel"; "quiet" ].

Definition ffmpeg_args (video_path output_path : string) : list string :=
  [ "ffmpeg"; "-i"; video_path; "-vn"; "-acodec"; "pcm_s16le"; "-ar"; "16000";
    "-ac"; "1"; "-y"; output_path ].

Definition _has_audio_stream (tools : Tools) (file_path : string) : bool * list tool_event :=
  let '(_, stdout, _) := run tools (ffprobe_args file_path) in
  (negb (String.eqb (strip stdout) ""), [Run (ffprobe_args file_path)]).

(** [extract_audio]: the path of the extracted file, or the message of the
    [RuntimeError] it raises. *)
Definition extract_audio (tools : Tools) (video_path : string)
    : (string + string) * list tool_event :=
  if negb (which tools "ffmpeg")
  then (inl "ffmpeg not found. Install it to process video files.", [])
  else
    let '(has_audio, log) := _has_audio_stream tools video_path in
    if negb has_audio
    then (inl ("No audio stream found in " ++ name video_path ++ ". "
               ++ "This video has no audio to transcribe."), log)
    else
      let temp_dir := mkdtemp tools "scribe_" in
      let log := (log ++ [Mkdtemp "scribe_" temp_dir])%list in
      let output_path := path_join temp_dir (stem video_path ++ ".wav") in
      let '(returncode, _, stderr) := run tools (ffmpeg_args video_path output_path) in
      let log := (log ++ [Run (ffmpeg_args video_path output_path)])%list in
      if negb (returncode =? 0)
      then (inl ("ffmpeg failed: " ++ stderr), log)
      else (inr output_path, log).

(** [prepare_audio]: the audio path and whether it is a temporary file, or
    the message of the error of [extract_audio]. *)
Definition prepare_audio (tools : Tools) (file_path : string)
    : (string + string * bool) * list tool_event :=
  if is_video_file file_path
  then
    match extract_audio tools file_path with
    | (inr audio_path, log) => (inr (audio_path, true), log)
    | (inl e, log) => (inl e, log)
    end
  else (inr (file_path, false), []).

End Audio.

(** ** [cli.py]: the [course] command *)

Section Course.

Variable suffix : string -> string.
Variable stem : string -> string.
Variable name : string -> string.
Variable parent : string -> string.
Variable path_join : string -> string -> string.
Variable lower : string -> string.
Variable strip : string -> string.

(** [json.dumps(actions_data, indent=2)] on records with the keys
    [description], [source] and [priority]. *)
Variable json_dumps : list ActionItem -> string.

(** Whether [console.print] raises [MarkupError] on a text. *)
Variable markup_error : string -> bool.

(** What the function reads from its environment: the file system, whether
    [mkdir] and [write_text] raise [OSError] on a path, the tools, the
    provider's reply for an audio file, a model and a language, the text of
    a file, and the reply of the diff collaborator for a transcript text and
    a course text.  A left value is the exception raised instead. *)
Record CourseWorld : Type := mkCourseWorld {
  cw_exists : string -> bool;
  cw_mkdir_error : string -> bool;
  cw_write_error : string -> bool;
  cw_tools : Tools;
  cw_listen : string -> string -> string -> string + Response;
  cw_read_text : string -> string + string;
  cw_diff : string -> string -> string + Diff.CourseDiff
}.

Inductive course_event : Type :=
  | CPrint (msg : string)
  | CMkdir (path : string)
  | CTool (e : tool_event)
  | CListen (audio_path model language : string)
  | CRmtree (path : string)
  | CDiff (transcript_text course_text : string)
  | CWrite (path : string) (content : string).

Definition cprint (text : string) : cmd course_event unit :=
  if markup_error text then raise_uncaught "MarkupError" else emit (CPrint text).

Definition cmkdir (w : CourseWorld) (path : string) : cmd course_event unit :=
  if cw_mkdir_error w path then raise_uncaught "OSError" else emit (CMkdir path).

Definition cwrite (w : CourseWorld) (path content : string) : cmd course_event unit :=
  if cw_write_error w path then raise_uncaught "OSError" else emit (CWrite path content).

(** A value or the exception raised instead, as a step of a command. *)
Definition or_raise {A : Type} (r : string + A) : cmd course_event A :=
  match r with
  | inr a => mret a
  | inl e => raise_uncaught e
  end.

(** [prepare_audio(video)] as a step of the command: what the tools did is
    logged, and its error is a [RuntimeError]. *)
Definition prepare (w : CourseWorld) (video : string) : cmd course_event (string * bool) :=
  let '(prepared, tool_log) :=
    prepare_audio suffix stem name path_join lower strip (cw_tools w) video in
  (match prepared with
   | inr audio => Done audio
   | inl _ => Uncaught "RuntimeError"
   end, map CTool tool_log).

(** The records of the sidecar file: [{**a.model_dump(), "source":
    video.name}] for every action item. *)
Definition actions_data_of (video : string) (actions : list ActionItem) : list ActionItem :=
  map (fun a => {| description := description a;
                   source := name video;
                   priority := priority a |})
      actions.

(** The function [course]. *)
Definition course (w : CourseWorld) (video text output week model language : string)
    : cmd course_event unit :=
  if negb (cw_exists w video)
  then
    _ ← cprint ("[red]Video file not found: " ++ video ++ "[/red]");
    raise_exit 1
  else if negb (cw_exists w text)
  then
    _ ← cprint ("[red]Text file not found: " ++ text ++ "[/red]");
    raise_exit 1
  else
    _ ← cmkdir w output;
    prepared ← prepare w video;
    let '(audio_path, is_temp) := (prepared : string * bool) in
    transcript ←
      try_finally
        (_ ← cprint ("[bold]Transcribing:[/bold] " ++ name video);
         _ ← emit (CListen audio_path model language);
         response ← or_raise (cw_listen w audio_path model language);
         _ ← cprint "  [green]Transcription complete.[/green]";
         (mret (_parse_response response audio_path) : cmd course_event Transcript))
        (if is_temp then emit (CRmtree (parent audio_path))
         else (mret tt : cmd course_event unit));
    course_text ← or_raise (cw_read_text w text);
    let transcript_text := transcript_text_of transcript in
    _ ← cprint "  Analyzing differences...";
    _ ← emit (CDiff transcript_text course_text);
    diff ← or_raise (cw_diff w transcript_text course_text);
    _ ← cprint ("  [green]Found " ++ str (len (Diff.additions diff))
                ++ " additions, " ++ str (len (Diff.omissions diff))
                ++ " omissions, " ++ str (len (Diff.action_items diff))
                ++ " action items.[/green]");
    let md_file := path_join output (stem video ++ "_diff.md") in
    _ ← cwrite w md_file (format_course_diff_markdown diff week);
    _ ← cprint ("  [bold green]Diff:[/bold green] " ++ md_file);
    let json_file := path_join output (stem video ++ "_actions.json") in
    let actions_data := actions_data_of video (Diff.action_items diff) in
    _ ← cwrite w json_file (json_dumps actions_data);
    cprint ("  [bold green]Actions:[/bold green] " ++ json_file).

(** The command [course] of the shipped program. *)
Definition course_command (w : CourseWorld) (video text output week model language : string)
    : Z * list course_event :=
  run_command (course w video text output week model language).


Definition is_cwrite (e : course_event) : bool :=
  match e with
  | CWrite _ _ => true
  | _ => false
  end.

End Course.

(** ** The naming of the specification

    [name_of names i] is the name the specification gives to speaker index
    [i]: [names[i]] if present, else the fallback label. *)

Definition name_of (names : list string) (i : Z) : string :=
  match names !! Z.to_nat i with
  | Some n => n
  | None => speaker_label i
  end.

(** The name an utterance with speaker index [k] receives when the
    transcript has [n] speakers. *)
Definition assigned_name (names : list string) (n k : Z) : string :=
  if decide (0 <= k < n) then name_of names k else speaker_label k.

(** ** Sample data

    The two-speaker transcript of the specification's end-to-end example, and
    a provider reply whose speaker indices are 0 and 2. *)

Definition example_transcript : Transcript :=
  {| source_file := "talk.mp3";
     duration := 4;
     speakers := ["Speaker 0"; "Speaker 1"];
     utterances :=
       [ {| speaker := 0; speaker_name := ""; start := 0; end_ := 2; text := "Hello" |};
         {| speaker := 1; speaker_name := ""; start := 2; end_ := 4; text := "Hi there" |} ];
     raw_text := "Hello Hi there" |}.

Definition gapped_response : Response :=
  {| alt_transcript := Some "Hello Hi there";
     metadata_duration := Some 4%Q;
     results_utterances :=
       Some [ {| ru_speaker := Some 0; ru_start := 0; ru_end := 2; ru_transcript := "Hello" |};
              {| ru_speaker := Some 2; ru_start := 2; ru_end := 4;
                 ru_transcript := "Hi there" |} ] |}.


(** A world for the [batch] command: the directory exists and holds no
    sidecar file. *)
Definition empty_directory_world : World unit :=
  {| path_exists := fun _ => true;
     glob := fun _ _ => [];
     read_json := fun _ => ReadCaught unit "unreadable";
     mkdir_error := fun _ => false;
     write_error := fun _ => false;
     collaborator := fun _ _ => inl "APIConnectionError" |}.

(** A heap that holds the sample transcript at location 3 and its two
    utterances at locations 1 and 2. *)
Definition example_heap : gmap positive Heap.obj :=
  <[3%positive :=
      Heap.TranscriptRef
        {| Heap.o_source_file := "talk.mp3";
           Heap.o_duration := 4;
           Heap.o_speakers := ["Speaker 0"; "Speaker 1"];
           Heap.o_utterances := [1%positive; 2%positive];
           Heap.o_raw_text := "Hello Hi there" |}]>
  (<[2%positive :=
       Heap.UtteranceObj
         {| speaker := 1; speaker_name := ""; start := 2; end_ := 4; text := "Hi there" |}]>
  (<[1%positive :=
       Heap.UtteranceObj
         {| speaker := 0; speaker_name := ""; start := 0; end_ := 2; text := "Hello" |}]>
   ∅)).

(** * Properties *)

(** ** Float helpers *)

Lemma Qfloor_div_pos (x : Q) (d : positive) :
  Qfloor (x / inject_Z (Z.pos d)) = Qfloor x / Z.pos d.
Proof.
  destruct x as [p q]. unfold Qdiv, Qinv, Qmult, inject_Z. simpl.
  rewrite Z.mul_1_r, Pos2Z.inj_mul, Z.div_div by lia. reflexivity.
Qed.

Lemma Qfloor_fmod (x : Q) (d : positive) :
  Qfloor (fmod x (Z.pos d)) = Qfloor x mod Z.pos d.
Proof.
  unfold fmod. rewrite Qfloor_div_pos.
  destruct x as [p q]. unfold Qminus, Qplus, Qopp, Qmult, inject_Z. simpl.
  rewrite Z.mul_1_r, Pos.mul_1_r.
  replace (p + - (Z.pos d * (p / Z.pos q / Z.pos d)) * Z.pos q)
    with (p + (- (Z.pos d * (p / Z.pos q / Z.pos d))) * Z.pos q) by ring.
  rewrite Z.div_add by lia.
  rewrite (Z.mod_eq (p / Z.pos q) (Z.pos d)) by lia. ring.
Qed.

Lemma fmod_nonneg (x : Q) (d : positive) : Qle_bool 0 (fmod x (Z.pos d)) = true.
Proof.
  unfold fmod. rewrite Qfloor_div_pos.
  destruct x as [p q]. unfold Qle_bool, Qminus, Qplus, Qopp, Qmult, inject_Z. simpl.
  apply Z.leb_le. rewrite Z.mul_1_r.
  pose proof (Z.mul_div_le (p / Z.pos q) (Z.pos d) ltac:(lia)) as H1.
  pose proof (Z.mul_div_le p (Z.pos q) ltac:(lia)) as H2.
  nia.
Qed.

Lemma int_inject_Z (z : Z) : Py.int (inject_Z z) = z.
Proof.
  unfold Py.int. destruct (Qle_bool 0 (inject_Z z)).
  - apply Qfloor_Z.
  - apply Qceiling_Z.
Qed.

Lemma Qfloor_nonneg (x : Q) : (0 <= x)%Q -> 0 <= Qfloor x.
Proof.
  intros H. change 0 with (Qfloor (inject_Z 0)).
  apply Qfloor_resp_le. exact H.
Qed.

Lemma Qle_bool_floor (k : Z) (x : Q) : Qle_bool (inject_Z k) x = (k <=? Qfloor x).
Proof.
  destruct x as [p q]. unfold Qle_bool, inject_Z. simpl.
  rewrite Z.mul_1_r.
  destruct (Z.leb_spec (k * Z.pos q) p) as [H | H];
    destruct (Z.leb_spec k (p / Z.pos q)) as [H' | H']; try reflexivity; exfalso.
  - assert (k <= p / Z.pos q); [apply Z.div_le_lower_bound; lia | lia].
  - pose proof (Z.mul_div_le p (Z.pos q) ltac:(lia)). nia.
Qed.

(** The three components computed by [format_timestamp], in integers. *)
Lemma timestamp_components (seconds : Q) :
  Py.int (floordiv seconds 3600) = Qfloor seconds / 3600 /\
  Py.int (floordiv (fmod seconds 3600) 60) = Qfloor seconds mod 3600 / 60 /\
  Py.int (fmod seconds 60) = Qfloor seconds mod 60.
Proof.
  unfold floordiv. rewrite !int_inject_Z, !Qfloor_div_pos, Qfloor_fmod.
  repeat split.
  unfold Py.int. rewrite fmod_nonneg. apply Qfloor_fmod.
Qed.

Lemma fmt_02d_width (m : Z) : 0 <= m < 100 -> String.length (fmt_02d m) = 2%nat.
Proof.
  intros H.
  assert (Hall : List.Forall (fun k => String.length (fmt_02d k) = 2%nat)
                   (map Z.of_nat (seq 0 100)))
    by (vm_compute; repeat constructor).
  apply (proj1 (List.Forall_forall _ _) Hall).
  apply in_map_iff. exists (Z.to_nat m). split; [lia | apply in_seq; lia].
Qed.

(** ** C2: [format_timestamp] *)

(** C2, as stated, fails: at 3661 seconds the hours are printed with two
    digits, not unpadded. *)
Lemma format_timestamp_hours_padded :
  format_timestamp 3661 = "01:01:01" /\ format_timestamp 3661 <> "1:01:01".
Proof. split; [reflexivity | discriminate]. Qed.

(** C2, amended: for non-negative [seconds], [format_timestamp] works on the
    integer part [n] of [seconds]; it returns [HH:MM:SS] when
    [seconds >= 3600] and [MM:SS] otherwise, every component (the hours too)
    formatted as [02d], which has exactly two digits for a value below 100;
    so 0, 59, 60 and 3661 seconds give 00:00, 00:59, 01:00 and 01:01:01. *)
Theorem format_timestamp_spec :
  (forall seconds : Q, (0 <= seconds)%Q ->
     let n := Qfloor seconds in
     format_timestamp seconds =
       if Qle_bool 3600 seconds
       then fmt_02d (n / 3600) ++ ":" ++ fmt_02d (n mod 3600 / 60) ++ ":" ++ fmt_02d (n mod 60)
       else fmt_02d (n / 60) ++ ":" ++ fmt_02d (n mod 60)) /\
  (forall m : Z, 0 <= m < 100 -> String.length (fmt_02d m) = 2%nat) /\
  format_timestamp 0 = "00:00" /\
  format_timestamp 59 = "00:59" /\
  format_timestamp 60 = "01:00" /\
  format_timestamp 3661 = "01:01:01".
Proof.
  split; [| split; [exact fmt_02d_width | repeat split]].
  intros seconds Hpos n. unfold format_timestamp.
  destruct (timestamp_components seconds) as (-> & -> & ->). fold n.
  assert (Hn : 0 <= n) by (apply Qfloor_nonneg; exact Hpos).
  change (Qle_bool 3600 seconds) with (Qle_bool (inject_Z 3600) seconds).
  rewrite Qle_bool_floor. fold n.
  destruct (Z.leb_spec 3600 n) as [Hge | Hlt].
  - assert (0 < n / 3600) by (apply Z.div_str_pos; lia).
    destruct (Z.ltb_spec 0 (n / 3600)); [reflexivity | lia].
  - rewrite (Z.div_small n 3600), (Z.mod_small n 3600) by lia. reflexivity.
Qed.

Lemma format_timestamp_spec_witness :
  format_timestamp (7323 # 2) = "01:01:01".
Proof.
  exact (proj1 format_timestamp_spec (7323 # 2)%Q ltac:(discriminate)).
Defined.

(** ** Lists built by appending, ranges and sorted keys *)

Lemma fold_append_map {A B : Type} (f : A -> B) (xs : list A) (init : list B) :
  fold_left (fun acc x => (acc ++ [f x])%list) xs init = (init ++ map f xs)%list.
Proof.
  revert init. induction xs as [| x xs IH]; intros init; simpl.
  - symmetry. apply app_nil_r.
  - rewrite IH, <- app_assoc. reflexivity.
Qed.

Lemma append_each_map {A : Type} (f : A -> string) (xs : list A) (lines : list string) :
  append_each f xs lines = (lines ++ map f xs)%list.
Proof. apply (fold_append_map f). Qed.

Lemma elem_of_range (n i : Z) : i ∈ range n <-> 0 <= i < n.
Proof.
  unfold range. rewrite list_elem_of_In, in_map_iff. split.
  - intros (k & <- & Hk). apply in_seq in Hk. lia.
  - intros H. exists (Z.to_nat i). split; [lia | apply in_seq; lia].
Qed.

Lemma range_sorted (n : Z) : StronglySorted Z.le (range n).
Proof.
  unfold range. generalize 0%nat as a. induction (Z.to_nat n) as [| k IH]; intros a; simpl.
  - constructor.
  - constructor; [apply IH |].
    apply List.Forall_forall. intros x Hx. apply in_map_iff in Hx.
    destruct Hx as (j & <- & Hj). apply in_seq in Hj. lia.
Qed.

Lemma range_NoDup (n : Z) : NoDup (range n).
Proof.
  unfold range. apply NoDup_fmap_2; [intros a b; lia |].
  apply NoDup_ListNoDup, List.seq_NoDup.
Qed.

Lemma range_length (n : Z) : length (range n) = Z.to_nat n.
Proof. unfold range. rewrite length_map, length_seq. reflexivity. Qed.

Lemma range_lookup (n : Z) (i : nat) :
  (i < Z.to_nat n)%nat -> range n !! i = Some (Z.of_nat i).
Proof.
  intros H. unfold range. rewrite list_lookup_fmap, lookup_seq_lt by exact H.
  reflexivity.
Qed.

(** A sorted list without duplicates that has the elements of a set is the
    sorted enumeration of the set. *)
Lemma sorted_set_unique (s : gset Z) (l : list Z) :
  StronglySorted Z.le l -> NoDup l -> (forall x, x ∈ l <-> x ∈ s) ->
  sorted_set s = l.
Proof.
  intros Hsorted Hnodup Hin. unfold sorted_set.
  apply (StronglySorted_unique Z.le).
  - apply StronglySorted_merge_sort; apply _.
  - exact Hsorted.
  - rewrite merge_sort_Permutation. apply NoDup_Permutation.
    + apply NoDup_elements.
    + exact Hnodup.
    + intros x. rewrite elem_of_elements. symmetry. apply Hin.
Qed.

Lemma elem_of_sorted_set (s : gset Z) (x : Z) : x ∈ sorted_set s <-> x ∈ s.
Proof.
  unfold sorted_set. rewrite merge_sort_Permutation. apply elem_of_elements.
Qed.

Lemma sorted_keys_set {V : Type} (d : gmap Z V) : sorted_keys d = sorted_set (dom d).
Proof. reflexivity. Qed.

(** ** The name map of [_assign_speaker_names] *)

Lemma getitem_lookup {A : Type} (xs : list A) (i : Z) (x : A) :
  0 <= i -> xs !! Z.to_nat i = Some x -> getitem xs i = Ok x.
Proof.
  intros Hi Hx. unfold getitem.
  assert (E : (i <? 0) = false) by lia.
  rewrite E. cbv zeta. rewrite E, Hx. reflexivity.
Qed.

Lemma name_entry (names : list string) (i : Z) :
  0 <= i ->
  (if i <? len names then getitem names i else Ok (speaker_label i)) = Ok (name_of names i).
Proof.
  intros Hi. unfold name_of, len.
  destruct (Z.ltb_spec i (Z.of_nat (length names))) as [Hlt | Hge].
  - destruct (lookup_lt_is_Some_2 names (Z.to_nat i) ltac:(lia)) as [x Hx].
    rewrite Hx. apply getitem_lookup; assumption.
  - rewrite (proj2 (lookup_ge_None names (Z.to_nat i))) by lia. reflexivity.
Qed.

Lemma name_map_of_lookup (names : list string) (indices : list Z) (acc : gmap Z string) :
  (forall i, i ∈ indices -> 0 <= i) ->
  exists m, name_map_of names indices acc = Ok m /\
    forall k, m !! k = if decide (k ∈ indices) then Some (name_of names k) else acc !! k.
Proof.
  revert acc. induction indices as [| i rest IH]; intros acc Hpos; simpl.
  - exists acc. split; [reflexivity |]. intros k.
    destruct (decide (k ∈ [])) as [Hk | _]; [inversion Hk | reflexivity].
  - rewrite name_entry by (apply Hpos; left). simpl.
    destruct (IH (<[i := name_of names i]> acc)) as (m & Hm & Hlook).
    { intros j Hj. apply Hpos. right. exact Hj. }
    exists m. split; [exact Hm |]. intros k. rewrite Hlook.
    destruct (decide (k ∈ rest)) as [Hk | Hk].
    + rewrite decide_True by (right; exact Hk). reflexivity.
    + destruct (decide (k = i)) as [-> | Hne].
      * rewrite decide_True by left. apply lookup_insert_eq.
      * rewrite decide_False by (rewrite elem_of_cons; tauto).
        apply lookup_insert_ne. congruence.
Qed.

Lemma name_map_range (names : list string) (n : Z) :
  exists m, name_map_of names (range n) ∅ = Ok m /\
    (forall k, m !! k = if decide (0 <= k < n) then Some (name_of names k) else None) /\
    sorted_keys m = range n.
Proof.
  destruct (name_map_of_lookup names (range n) ∅) as (m & Hm & Hlook).
  { intros i Hi. apply elem_of_range in Hi. lia. }
  assert (Hlook' : forall k,
            m !! k = if decide (0 <= k < n) then Some (name_of names k) else None).
  { intros k. rewrite Hlook.
    destruct (decide (k ∈ range n)) as [Hk | Hk]; rewrite elem_of_range in Hk.
    - rewrite decide_True by exact Hk. reflexivity.
    - rewrite decide_False by exact Hk. apply lookup_empty. }
  exists m. split; [exact Hm | split; [exact Hlook' |]].
  rewrite sorted_keys_set. apply sorted_set_unique.
  - apply range_sorted.
  - apply range_NoDup.
  - intros x. rewrite elem_of_range, elem_of_dom, Hlook'.
    destruct (decide (0 <= x < n)) as [Hx | Hx]; split; intros H; try tauto.
    + eexists; reflexivity.
    + destruct H as [? H]; discriminate.
Qed.

Lemma dict_getitem_Some {V : Type} (m : gmap Z V) (k : Z) (v : V) :
  m !! k = Some v -> dict_getitem m k = Ok v.
Proof. intros H. unfold dict_getitem. rewrite H. reflexivity. Qed.

Lemma mapM_dict_getitem (m : gmap Z string) (f : Z -> string) (ks : list Z) :
  (forall k, k ∈ ks -> m !! k = Some (f k)) ->
  mapM (dict_getitem m) ks = Ok (map f ks).
Proof.
  induction ks as [| k ks IH]; intros H; simpl; [reflexivity |].
  rewrite (dict_getitem_Some m k (f k)) by (apply H; left).
  rewrite IH by (intros j Hj; apply H; right; exact Hj). reflexivity.
Qed.

Lemma rename_utterances_map (m : gmap Z string) (us : list Utterance) :
  rename_utterances m us =
  map (fun u => with_speaker_name u (dict_get m (speaker u) (speaker_label (speaker u)))) us.
Proof. unfold rename_utterances. apply (fold_append_map _ us []). Qed.

(** The closed form of [_assign_speaker_names]: it always returns, the new
    speakers are the names of the indices below the old length, and every
    utterance is renamed by its index. *)
Lemma assign_speaker_names_eq (t : Transcript) (names : list string) :
  _assign_speaker_names t names =
  Ok (model_copy_update t
        (map (name_of names) (range (len (speakers t))))
        (map (fun u => with_speaker_name u
                         (assigned_name names (len (speakers t)) (speaker u)))
             (utterances t))).
Proof.
  unfold _assign_speaker_names.
  destruct (name_map_range names (len (speakers t))) as (m & -> & Hlook & Hkeys).
  simpl. rewrite Hkeys.
  rewrite (mapM_dict_getitem m (name_of names)).
  2:{ intros k Hk. rewrite Hlook. apply elem_of_range in Hk.
      rewrite decide_True by exact Hk. reflexivity. }
  simpl. rewrite rename_utterances_map. do 2 f_equal.
  apply map_ext. intros u. f_equal. unfold dict_get, assigned_name.
  rewrite Hlook. destruct (decide (0 <= speaker u < len (speakers t))); reflexivity.
Qed.

Lemma len_assigned_speakers (names : list string) (t : Transcript) :
  len (map (name_of names) (range (len (speakers t)))) = len (speakers t).
Proof. unfold len. rewrite length_map, range_length. lia. Qed.

Lemma assigned_speakers_getitem (names : list string) (n k : Z) :
  0 <= k < n -> getitem (map (name_of names) (range n)) k = Ok (name_of names k).
Proof.
  intros Hk. apply getitem_lookup; [lia |].
  change (map (name_of names) (range n)) with (name_of names <$> range n).
  rewrite list_lookup_fmap, range_lookup by lia.
  simpl. rewrite Z2Nat.id by lia. reflexivity.
Qed.

(** ** C4: the speakers list after [_assign_speaker_names] *)



(** ** C5: the name of every utterance after [_assign_speaker_names] *)

(** C5, as stated, fails: for the provider's transcript of a reply with the
    speaker indices 0 and 2, the second utterance is named [Speaker 2] while
    [speakers[2]] does not exist. *)
Lemma assign_names_utterance_out_of_range :
  exists t' u,
    _assign_speaker_names (_parse_response gapped_response "talk.mp3") ["Alice"; "Bob"]
      = Ok t' /\
    u ∈ utterances t' /\
    speaker_name u = "Speaker 2" /\
    getitem (speakers t') (speaker u) = Raise IndexError /\
    getitem (speakers t') (speaker u) <> Ok (speaker_name u).
Proof.
  eexists. eexists. split; [vm_compute; reflexivity |].
  split; [right; left |]. vm_compute. repeat split. discriminate.
Qed.

(** C5, amended: after [_assign_speaker_names], every utterance whose speaker
    index lies within the speakers list has [speaker_name] equal to
    [speakers[index]]; an utterance whose index lies outside has the label
    [Speaker index]. *)
Theorem assign_names_utterance_name (t : Transcript) (names : list string) :
  exists t', _assign_speaker_names t names = Ok t' /\
    forall u, u ∈ utterances t' ->
      (0 <= speaker u < len (speakers t') ->
         getitem (speakers t') (speaker u) = Ok (speaker_name u)) /\
      (~ 0 <= speaker u < len (speakers t') ->
         speaker_name u = speaker_label (speaker u)).
Proof.
  eexists. split; [apply assign_speaker_names_eq |]. simpl.
  intros u Hu. rewrite len_assigned_speakers.
  apply list_elem_of_In, in_map_iff in Hu. destruct Hu as (u0 & <- & _). simpl.
  unfold assigned_name. split; intros Hk.
  - rewrite decide_True by exact Hk. apply assigned_speakers_getitem. exact Hk.
  - rewrite decide_False by exact Hk. reflexivity.
Qed.

Lemma assign_names_utterance_name_witness :
  exists t', _assign_speaker_names example_transcript ["Alice"; "Bob"] = Ok t' /\
    forall u, u ∈ utterances t' -> getitem (speakers t') (speaker u) = Ok (speaker_name u).
Proof.
  destruct (assign_names_utterance_name example_transcript ["Alice"; "Bob"])
    as (t' & Ht & Hu).
  exists t'. split; [exact Ht |]. intros u Hin.
  apply (proj1 (Hu u Hin)).
  revert u Hin. apply Forall_forall.
  vm_compute in Ht. injection Ht as <-.
  repeat constructor; vm_compute; discriminate.
Defined.

(** The end-to-end example of the specification: the sample transcript,
    named Alice and Bob, rendered as plain text. *)
Example end_to_end_plain_text :
  (t ← _assign_speaker_names example_transcript ["Alice"; "Bob"];
   Ok (format_transcript_text t))
  = Ok ("[00:00] Alice: Hello" ++ nl ++ "[00:02] Bob: Hi there").
Proof. vm_compute. reflexivity. Qed.

(** ** C6: idempotence *)

(** C6: applying [_assign_speaker_names] with the same name list to its own
    result returns that result again. *)
Theorem assign_names_idempotent (t : Transcript) (names : list string) :
  exists t', _assign_speaker_names t names = Ok t' /\
    _assign_speaker_names t' names = Ok t' /\
    (_assign_speaker_names t names ≫= fun r => _assign_speaker_names r names)
      = _assign_speaker_names t names.
Proof.
  eexists. split; [apply assign_speaker_names_eq |].
  assert (Hagain :
    _assign_speaker_names
      (model_copy_update t
         (map (name_of names) (range (len (speakers t))))
         (map (fun u => with_speaker_name u
                          (assigned_name names (len (speakers t)) (speaker u)))
              (utterances t))) names
    = Ok (model_copy_update t
         (map (name_of names) (range (len (speakers t))))
         (map (fun u => with_speaker_name u
                          (assigned_name names (len (speakers t)) (speaker u)))
              (utterances t)))).
  { rewrite assign_speaker_names_eq. simpl. rewrite len_assigned_speakers.
    unfold model_copy_update. simpl. do 2 f_equal.
    rewrite map_map. apply map_ext. intros u. reflexivity. }
  split; [exact Hagain |].
  rewrite (assign_speaker_names_eq t names). exact Hagain.
Qed.

(** ** The provider's transcript and the interactive naming *)

Lemma parse_utterances_acc (rus : list RespUtterance) (s : gset Z) (us : list Utterance) :
  exists s' us',
    fold_left parse_step rus (s, us) = (s', (us ++ us')%list) /\
    s' = list_to_set (map speaker us') ∪ s /\
    length us' = length rus.
Proof.
  revert s us. induction rus as [| ru rus IH]; intros s us; simpl.
  - exists s, []. rewrite app_nil_r. split; [reflexivity |]. split; [| reflexivity].
    simpl. set_solver.
  - destruct (IH ({[default 0 (ru_speaker ru)]} ∪ s)
                (us ++ [ {| speaker := default 0 (ru_speaker ru);
                            speaker_name := "";
                            start := ru_start ru;
                            end_ := ru_end ru;
                            text := ru_transcript ru |} ])%list)
      as (s' & us' & Hfold & Hs & Hlen).
    exists s'. eexists (_ :: us'). rewrite Hfold, <- app_assoc. simpl.
    split; [reflexivity |]. split; [| congruence].
    rewrite Hs. set_solver.
Qed.

(** The speakers of a parsed reply: one label per distinct speaker index of
    its utterances, in ascending order of the index. *)
Lemma parse_response_speakers (response : Response) (source_file : string) :
  speakers (_parse_response response source_file) =
  map speaker_label
    (sorted_set (list_to_set (map speaker (utterances (_parse_response response source_file))))).
Proof.
  unfold _parse_response.
  destruct (results_utterances response) as [[| ru rus] |]; try reflexivity.
  unfold parse_utterances.
  destruct (parse_utterances_acc (ru :: rus) ∅ []) as (s' & us' & -> & -> & _).
  simpl. do 2 f_equal. set_solver.
Qed.









(** ** C3: speaker indices stay below the number of speakers *)




(** ** C7: the weekly digest *)







(** ** The lines of the transcript renderers *)


Lemma markdown_lines_eq (stem : string -> string) (t : Transcript) (s : option Summary) :
  exists header,
    format_transcript_markdown_lines stem t s =
    (header ++ match utterances t with
               | [] => [raw_text t]
               | us => map markdown_utterance_line us
               end)%list.
Proof.
  unfold format_transcript_markdown_lines.
  destruct (utterances t) as [| u us]; eexists.
  - unfold append at 1. reflexivity.
  - rewrite append_each_map. reflexivity.
Qed.

(** ** C10: the fallback label of an unnamed speaker *)



(** ** C1: rendering without timestamps and names *)

(** C1 does not hold of the code: [cli.py] imports a renderer
    [format_transcript_raw_text] that [utils.py] does not define and passes
    a keyword [raw_text] that [format_transcript_markdown] does not accept;
    the markdown renderer takes a transcript and a summary and nothing else,
    and for every transcript with utterances its transcript body consists of
    one line per utterance that starts with [**[], the timestamp, and the
    speaker name; so does the rendering of the sample transcript. *)
Theorem markdown_body_keeps_timestamps :
  ("format_transcript_raw_text" ∈ cli_imports_from_utils) /\
  ("format_transcript_raw_text" ∉ utils_namespace) /\
  ("raw_text" ∉ format_transcript_markdown_parameters) /\
  (forall (stem : string -> string) (t : Transcript) (s : option Summary),
     exists header,
       format_transcript_markdown_lines stem t s =
       (header ++ match utterances t with
                  | [] => [raw_text t]
                  | us => map markdown_utterance_line us
                  end)%list) /\
  (forall u : Utterance,
     markdown_utterance_line u =
       "**[" ++ format_timestamp (start u) ++ "] "
       ++ str_or (speaker_name u) (speaker_label (speaker u)) ++ ":** " ++ text u ++ nl) /\
  (forall stem : string -> string,
     format_transcript_markdown_lines stem example_transcript None =
     [ "# Transcript: " ++ stem "talk.mp3" ++ nl;
       "**Duration:** 00:04" ++ nl;
       "**Speakers:** Speaker 0, Speaker 1" ++ nl;
       "---" ++ nl;
       "## Transcript" ++ nl;
       "**[00:00] Speaker 0:** Hello" ++ nl;
       "**[00:02] Speaker 1:** Hi there" ++ nl ]).
Proof.
  split; [apply list_elem_of_In; vm_compute; tauto |].
  split; [rewrite list_elem_of_In; vm_compute; intuition discriminate |].
  split; [rewrite list_elem_of_In; vm_compute; intuition discriminate |].
  split; [exact markdown_lines_eq |]. split; [reflexivity |].
  intros stem. reflexivity.
Qed.

(** ** C9: the [batch] command without sidecar files *)

(** C9 does not hold of the shipped command: the module [cli.py] imports
    [format_transcript_raw_text], which [utils.py] does not bind, so the
    command ends with code 1 before the function [batch] runs, whatever the
    directory holds, and prints no warning; the function itself, run on an
    existing directory without sidecar files, prints the warning and leaves
    through [typer.Exit(0)] without any other effect. *)
Theorem batch_without_sidecars :
  cli_module_loads = false /\
  (forall (RawItem : Type) (path_name path_parent : string -> string)
          (path_join : string -> string -> string) (markup_error : string -> bool)
          (w : World RawItem) (directory : string) (output : option string)
          (week : string),
     batch_command RawItem path_name path_parent path_join markup_error
       w directory output week = (1, [])) /\
  (forall (RawItem : Type) (path_name path_parent : string -> string)
          (path_join : string -> string -> string) (markup_error : string -> bool)
          (w : World RawItem) (directory : string) (output : option string)
          (week : string),
     path_exists RawItem w directory = true ->
     glob RawItem w directory "*_actions.json" = [] ->
     markup_error "[yellow]No action JSON files found in directory.[/yellow]" = false ->
     batch RawItem path_name path_parent path_join markup_error
       w directory output week
     = (Exit 0,
        [Print RawItem "[yellow]No action JSON files found in directory.[/yellow]"])).
Proof.
  split; [vm_compute; reflexivity |]. split.
  - intros. reflexivity.
  - intros RawItem path_name path_parent path_join markup_error w directory output week
      Hexists Hglob Hprint.
    unfold batch. rewrite Hexists, Hglob. simpl.
    unfold print. rewrite Hprint. reflexivity.
Qed.

Lemma batch_without_sidecars_witness :
  batch unit (fun p => p) (fun p => p) (fun d n => d ++ "/" ++ n) (fun _ => false)
    empty_directory_world "notes" None "3"
  = (Exit 0, [Print unit "[yellow]No action JSON files found in directory.[/yellow]"]) /\
  batch_command unit (fun p => p) (fun p => p) (fun d n => d ++ "/" ++ n) (fun _ => false)
    empty_directory_world "notes" None "3"
  = (1, []).
Proof.
  destruct batch_without_sidecars as (_ & Hcommand & Hfunction). split.
  - apply Hfunction; reflexivity.
  - apply Hcommand.
Defined.

(** ** Speaker naming on objects refines speaker naming on values *)

Lemma mapM_cons_Ok {A B : Type} (f : A -> result B) (x : A) (xs : list A) (ys : list B) :
  mapM f (x :: xs) = Ok ys ->
  exists y ys', f x = Ok y /\ mapM f xs = Ok ys' /\ ys = y :: ys'.
Proof.
  simpl. destruct (f x) as [y |]; [| discriminate].
  simpl. destruct (mapM f xs) as [ys' |]; [| discriminate].
  simpl. intros [= <-]. eauto.
Qed.

Lemma get_utterance_weaken (h h' : gmap positive Heap.obj) (l : positive) (u : Utterance) :
  h ⊆ h' -> Heap.get_utterance h l = Ok u -> Heap.get_utterance h' l = Ok u.
Proof.
  intros Hsub. unfold Heap.get_utterance.
  destruct (h !! l) as [[u0 | t0] |] eqn:E; try discriminate.
  intros [= ->]. rewrite (lookup_weaken _ _ _ _ E Hsub). reflexivity.
Qed.

Lemma read_utterances_weaken (h h' : gmap positive Heap.obj) (ls : list positive)
    (us : list Utterance) :
  h ⊆ h' -> Heap.read_utterances h ls = Ok us -> Heap.read_utterances h' ls = Ok us.
Proof.
  intros Hsub. unfold Heap.read_utterances. revert us.
  induction ls as [| l ls IH]; intros us H; [exact H |].
  apply mapM_cons_Ok in H. destruct H as (u & us' & Hu & Hus & ->).
  simpl. rewrite (get_utterance_weaken h h' l u Hsub Hu). simpl.
  rewrite (IH us' Hus). reflexivity.
Qed.

Lemma read_transcript_weaken (h h' : gmap positive Heap.obj) (l : positive) (t : Transcript) :
  h ⊆ h' -> Heap.read_transcript h l = Ok t -> Heap.read_transcript h' l = Ok t.
Proof.
  intros Hsub. unfold Heap.read_transcript, Heap.get_transcript.
  destruct (h !! l) as [[u0 | t0] |] eqn:E; try discriminate.
  rewrite (lookup_weaken _ _ _ _ E Hsub). simpl.
  destruct (Heap.read_utterances h (Heap.o_utterances t0)) as [us |] eqn:Hus;
    [| discriminate].
  rewrite (read_utterances_weaken h h' _ us Hsub Hus). trivial.
Qed.

Lemma fresh_lookup_None (h : gmap positive Heap.obj) : h !! fresh (dom h) = None.
Proof. apply not_elem_of_dom, is_fresh. Qed.

Lemma set_speaker_name_copy (h : gmap positive Heap.obj) (c : positive) (u : Utterance)
    (name : string) :
  Heap.set_speaker_name (<[c := Heap.UtteranceObj u]> h) c name
  = Ok (<[c := Heap.UtteranceObj (with_speaker_name u name)]> h).
Proof.
  unfold Heap.set_speaker_name, Heap.get_utterance.
  rewrite lookup_insert_eq. simpl. rewrite insert_insert_eq. reflexivity.
Qed.

(** The loop on objects: it returns, allocates one new utterance per old
    one, leaves every object of the old heap as it was, and the new objects
    hold the renamed utterances. *)
Lemma rename_loop_spec (m : gmap Z string) (ls : list positive) :
  forall (acc : list positive) (h : gmap positive Heap.obj) (us : list Utterance),
    Heap.read_utterances h ls = Ok us ->
    exists new h',
      Heap.rename_loop m ls acc h = Ok ((acc ++ new)%list, h') /\
      h ⊆ h' /\
      Heap.read_utterances h' new = Ok (rename_utterances m us) /\
      (forall l, l ∈ new -> l ∉ dom h).
Proof.
  induction ls as [| l ls IH]; intros acc h us Hread.
  - injection Hread as <-. exists [], h. rewrite app_nil_r.
    split; [reflexivity |]. split; [reflexivity |]. split; [reflexivity |].
    intros l Hl. inversion Hl.
  - apply mapM_cons_Ok in Hread. destruct Hread as (u & us' & Hu & Hus & ->).
    pose (c := fresh (dom h)).
    pose (h1 := <[c := Heap.UtteranceObj u]> h).
    pose (name := dict_get m (speaker u) (speaker_label (speaker u))).
    pose (h2 := <[c := Heap.UtteranceObj (with_speaker_name u name)]> h).
    assert (Hc : h !! c = None) by apply fresh_lookup_None.
    assert (Hsub1 : h ⊆ h1) by (apply insert_subseteq; exact Hc).
    assert (Hsub2 : h ⊆ h2) by (apply insert_subseteq; exact Hc).
    destruct (IH (acc ++ [c])%list h2 us'
                (read_utterances_weaken h h2 ls us' Hsub2 Hus))
      as (new & h' & Hloop & Hsub' & Hnew & Hfresh).
    exists (c :: new), h'. split; [| split; [| split]].
    + simpl. unfold Heap.utterance_model_copy. rewrite Hu. simpl.
      fold c. fold h1.
      rewrite (get_utterance_weaken h h1 l u Hsub1 Hu). simpl.
      unfold h1. rewrite set_speaker_name_copy. simpl. fold name. fold h2.
      rewrite Hloop, <- app_assoc. reflexivity.
    + transitivity h2; assumption.
    + rewrite rename_utterances_map. simpl. rewrite <- rename_utterances_map.
      unfold Heap.read_utterances in *. simpl.
      assert (Hgc : Heap.get_utterance h' c = Ok (with_speaker_name u name)).
      { apply (get_utterance_weaken h2 h' c _ Hsub'). unfold Heap.get_utterance, h2.
        rewrite lookup_insert_eq. reflexivity. }
      rewrite Hgc. simpl. rewrite Hnew. reflexivity.
    + intros x Hx. apply elem_of_cons in Hx. destruct Hx as [-> | Hx].
      * apply not_elem_of_dom. exact Hc.
      * intros Hin. apply (Hfresh x Hx). unfold h2. rewrite dom_insert. set_solver.
Qed.

Lemma assign_speaker_names_unfold (t : Transcript) (names : list string)
    (m : gmap Z string) (sp : list string) :
  name_map_of names (range (len (speakers t))) ∅ = Ok m ->
  mapM (dict_getitem m) (sorted_keys m) = Ok sp ->
  _assign_speaker_names t names =
  Ok (model_copy_update t sp (rename_utterances m (utterances t))).
Proof.
  intros Hm Hsp. unfold _assign_speaker_names. rewrite Hm. simpl. rewrite Hsp. reflexivity.
Qed.

(** ** C8: what [_assign_speaker_names] keeps *)

(** C8: on a heap where [transcript] denotes the value [t], the call returns
    a new transcript object denoting the value the function on values
    returns; that value has the [source_file], [duration] and [raw_text] of
    [t] and as many utterances, each with the [speaker], [start], [end] and
    [text] of the utterance of [t] at the same position; every object of the
    heap before the call is unchanged after it, so [transcript] still
    denotes [t], and the returned transcript and its utterances are new
    objects. *)
Theorem assign_names_frame
    (h : gmap positive Heap.obj) (transcript : positive) (t : Transcript)
    (names : list string) :
  Heap.read_transcript h transcript = Ok t ->
  exists (transcript' : positive) (h' : gmap positive Heap.obj)
         (o' : Heap.TranscriptObj) (t' : Transcript),
    Heap._assign_speaker_names h transcript names = Ok (transcript', h') /\
    _assign_speaker_names t names = Ok t' /\
    Heap.get_transcript h' transcript' = Ok o' /\
    Heap.read_transcript h' transcript' = Ok t' /\
    (forall l o, h !! l = Some o -> h' !! l = Some o) /\
    Heap.read_transcript h' transcript = Ok t /\
    (transcript' ∉ dom h) /\
    (forall l, l ∈ Heap.o_utterances o' -> l ∉ dom h) /\
    source_file t' = source_file t /\
    duration t' = duration t /\
    raw_text t' = raw_text t /\
    length (utterances t') = length (utterances t) /\
    forall (i : nat) (u : Utterance), utterances t !! i = Some u ->
      exists u', utterances t' !! i = Some u' /\
        speaker u' = speaker u /\ start u' = start u /\
        end_ u' = end_ u /\ text u' = text u.
Proof.
  intros Hread.
  assert (Hread0 := Hread).
  unfold Heap.read_transcript in Hread.
  destruct (Heap.get_transcript h transcript) as [o |] eqn:Ho; [| discriminate].
  simpl in Hread.
  destruct (Heap.read_utterances h (Heap.o_utterances o)) as [us |] eqn:Hus;
    [| discriminate].
  simpl in Hread. injection Hread as <-.
  destruct (name_map_range names (len (Heap.o_speakers o))) as (m & Hm & Hlook & Hkeys).
  assert (Hsp : mapM (dict_getitem m) (sorted_keys m)
                = Ok (map (name_of names) (range (len (Heap.o_speakers o))))).
  { rewrite Hkeys. apply mapM_dict_getitem. intros k Hk. rewrite Hlook.
    apply elem_of_range in Hk. rewrite decide_True by exact Hk. reflexivity. }
  destruct (rename_loop_spec m (Heap.o_utterances o) [] h us Hus)
    as (new & h1 & Hloop & Hsub & Hnew & Hfresh).
  pose (o' := {| Heap.o_source_file := Heap.o_source_file o;
                 Heap.o_duration := Heap.o_duration o;
                 Heap.o_speakers := map (name_of names) (range (len (Heap.o_speakers o)));
                 Heap.o_utterances := new;
                 Heap.o_raw_text := Heap.o_raw_text o |}).
  pose (l' := fresh (dom h1)).
  pose (h' := <[l' := Heap.TranscriptRef o']> h1).
  assert (Hl' : h1 !! l' = None) by apply fresh_lookup_None.
  assert (Hsub' : h1 ⊆ h') by (apply insert_subseteq; exact Hl').
  assert (Hsub2 : h ⊆ h') by (transitivity h1; assumption).
  assert (Hget : Heap.get_transcript h' l' = Ok o').
  { unfold Heap.get_transcript, h'. rewrite lookup_insert_eq. reflexivity. }
  exists l', h', o'.
  eexists. split; [| split; [| split; [exact Hget | split]]].
  - unfold Heap._assign_speaker_names. rewrite Ho. simpl. rewrite Hm. simpl.
    rewrite Hsp. simpl. rewrite Hloop. reflexivity.
  - apply (assign_speaker_names_unfold
             {| source_file := Heap.o_source_file o;
                duration := Heap.o_duration o;
                speakers := Heap.o_speakers o;
                utterances := us;
                raw_text := Heap.o_raw_text o |} names m _ Hm Hsp).
  - unfold Heap.read_transcript. rewrite Hget. simpl.
    rewrite (read_utterances_weaken h1 h' new _ Hsub' Hnew). reflexivity.
  - split; [intros l o0 Hl; exact (lookup_weaken _ _ _ _ Hl Hsub2) |].
    split; [exact (read_transcript_weaken h h' transcript _ Hsub2 Hread0) |].
    split.
    { intros Hin. apply elem_of_dom in Hin. destruct Hin as [x Hx].
      rewrite (lookup_weaken _ _ _ _ Hx Hsub) in Hl'. discriminate Hl'. }
    split; [exact Hfresh |]. simpl.
    split; [reflexivity |]. split; [reflexivity |]. split; [reflexivity |].
    rewrite rename_utterances_map. split; [apply length_map |].
    intros i u Hi. eexists. split.
    + change (map ?f us) with (f <$> us). rewrite list_lookup_fmap, Hi. reflexivity.
    + repeat split.
Qed.

Lemma assign_names_frame_witness :
  exists (transcript' : positive) (h' : gmap positive Heap.obj),
    Heap._assign_speaker_names example_heap 3 ["Alice"] = Ok (transcript', h') /\
    Heap.read_transcript h' 3 = Ok example_transcript /\
    transcript' ∉ dom example_heap.
Proof.
  destruct (assign_names_frame example_heap 3 example_transcript ["Alice"])
    as (l' & h' & _ & _ & Hcall & _ & _ & _ & _ & Hold & Hnew & _).
  - vm_compute. reflexivity.
  - exists l', h'. split; [exact Hcall |]. split; [exact Hold | exact Hnew].
Defined.

(** * Further properties of the code *)

(** ** Labels *)

Lemma str_inj (a b : Z) : str a = str b -> a = b.
Proof.
  unfold str. intros H. apply DecimalZ.to_int_inj.
  assert (Hnn : forall z : Z,
            Z.to_int z <> Decimal.Pos Decimal.Nil /\ Z.to_int z <> Decimal.Neg Decimal.Nil).
  { intros [| p | p]; simpl; split; try discriminate;
      intros E; injection E as E; exact (DecimalPos.Unsigned.to_uint_nonnil p E). }
  pose proof (NilZero.isi (Z.to_int a) (proj1 (Hnn a)) (proj2 (Hnn a))) as Ha.
  pose proof (NilZero.isi (Z.to_int b) (proj1 (Hnn b)) (proj2 (Hnn b))) as Hb.
  rewrite H in Ha. rewrite Ha in Hb. injection Hb as Hb. exact Hb.
Qed.

Lemma speaker_label_inj (a b : Z) : speaker_label a = speaker_label b -> a = b.
Proof. unfold speaker_label. simpl. intros [= H]. apply str_inj, H. Qed.

Lemma str_or_label (i : Z) (other : string) :
  str_or (speaker_label i) other = speaker_label i.
Proof. reflexivity. Qed.

(** ** [_assign_speaker_names]: surplus names and repeated naming *)

Lemma name_of_app_l (names extra : list string) (k : Z) :
  0 <= k < len names -> name_of (names ++ extra) k = name_of names k.
Proof.
  intros Hk. unfold name_of, len in *.
  rewrite lookup_app_l by lia. reflexivity.
Qed.

Lemma assigned_speakers_take (names : list string) (n : Z) :
  0 <= n <= len names ->
  map (name_of names) (range n) = take (Z.to_nat n) names.
Proof.
  intros Hn. unfold len in Hn. apply list_eq. intros i.
  change (map (name_of names) (range n)) with (name_of names <$> range n).
  rewrite list_lookup_fmap.
  destruct (decide (i < Z.to_nat n)%nat) as [Hi | Hi].
  - rewrite range_lookup, lookup_take_lt by exact Hi. simpl.
    unfold name_of. rewrite Nat2Z.id.
    destruct (lookup_lt_is_Some_2 names i ltac:(lia)) as [x Hx].
    rewrite Hx. reflexivity.
  - rewrite (proj2 (lookup_ge_None (range n) i)) by (rewrite range_length; lia).
    rewrite lookup_take_ge by lia. reflexivity.
Qed.

(** X1: names beyond the number of speakers are ignored: when the list has at
    least as many names as the transcript has speakers, further names change
    nothing, and the new speakers list is the first [len(speakers)] names. *)
Theorem assign_names_surplus_ignored (t : Transcript) (names extra : list string) :
  len (speakers t) <= len names ->
  _assign_speaker_names t (names ++ extra) = _assign_speaker_names t names /\
  exists t', _assign_speaker_names t names = Ok t' /\
    speakers t' = take (length (speakers t)) names.
Proof.
  intros Hlen. rewrite !assign_speaker_names_eq. split.
  - unfold model_copy_update. do 2 f_equal.
    + apply map_ext_in. intros k Hk.
      apply list_elem_of_In, elem_of_range in Hk. apply name_of_app_l. lia.
    + apply map_ext. intros u. f_equal. unfold assigned_name.
      destruct (decide (0 <= speaker u < len (speakers t))); [| reflexivity].
      apply name_of_app_l. lia.
  - eexists. split; [reflexivity |]. simpl.
    rewrite assigned_speakers_take by (unfold len in *; lia).
    unfold len. rewrite Nat2Z.id. reflexivity.
Qed.

Lemma assign_names_surplus_ignored_witness :
  _assign_speaker_names example_transcript (["Alice"; "Bob"] ++ ["Carol"])
  = _assign_speaker_names example_transcript ["Alice"; "Bob"].
Proof.
  apply (assign_names_surplus_ignored example_transcript ["Alice"; "Bob"] ["Carol"]).
  unfold len. simpl. lia.
Defined.

(** X2: the last naming wins: naming with [first] and then with [second]
    gives what naming with [second] alone gives. *)
Theorem assign_names_last_wins (t : Transcript) (first second : list string) :
  (_assign_speaker_names t first ≫= fun r => _assign_speaker_names r second)
  = _assign_speaker_names t second.
Proof.
  rewrite (assign_speaker_names_eq t first). simpl.
  rewrite !assign_speaker_names_eq. simpl. rewrite len_assigned_speakers.
  unfold model_copy_update. simpl. do 2 f_equal.
  rewrite map_map. apply map_ext. intros u. reflexivity.
Qed.

(** ** [_prompt_speaker_names]: the names come from the answers *)




(** ** [_parse_response]: the shape of the provider's transcript *)

Lemma parse_utterances_map (rus : list RespUtterance) (s : gset Z) (us : list Utterance) :
  fold_left parse_step rus (s, us) =
  (list_to_set (map (fun ru => default 0 (ru_speaker ru)) rus) ∪ s,
   (us ++ map (fun ru => {| speaker := default 0 (ru_speaker ru);
                            speaker_name := "";
                            start := ru_start ru;
                            end_ := ru_end ru;
                            text := ru_transcript ru |}) rus)%list).
Proof.
  revert s us. induction rus as [| ru rus IH]; intros s us; simpl.
  - rewrite app_nil_r. f_equal. set_solver.
  - rewrite IH, <- app_assoc. simpl. f_equal. set_solver.
Qed.

Lemma parse_response_utterances (response : Response) (source_file : string) :
  utterances (_parse_response response source_file) =
  map (fun ru => {| speaker := default 0 (ru_speaker ru);
                    speaker_name := "";
                    start := ru_start ru;
                    end_ := ru_end ru;
                    text := ru_transcript ru |})
      (default [] (results_utterances response)).
Proof.
  unfold _parse_response.
  destruct (results_utterances response) as [[| ru rus] |]; try reflexivity.
  unfold parse_utterances. rewrite parse_utterances_map. reflexivity.
Qed.

Lemma sorted_set_NoDup (s : gset Z) : NoDup (sorted_set s).
Proof. unfold sorted_set. rewrite merge_sort_Permutation. apply NoDup_elements. Qed.

(** X4: the transcript parsed from a reply has one utterance per utterance
    of the reply, in order, with the speaker index of the reply (0 when the
    reply has none), the times and the text of the reply and an empty
    [speaker_name]; its speakers are the labels [Speaker i] of the distinct
    indices [i] of these utterances, each once, so there are never more
    speakers than utterances. *)
Theorem parse_response_shape (response : Response) (source : string) :
  let t := _parse_response response source in
  let rus := default [] (results_utterances response) in
  source_file t = source /\
  length (utterances t) = length rus /\
  (forall (i : nat) (ru : RespUtterance), rus !! i = Some ru ->
     utterances t !! i =
       Some {| speaker := default 0 (ru_speaker ru);
               speaker_name := "";
               start := ru_start ru;
               end_ := ru_end ru;
               text := ru_transcript ru |}) /\
  (forall s, s ∈ speakers t <->
     exists u, u ∈ utterances t /\ s = speaker_label (speaker u)) /\
  NoDup (speakers t) /\
  (length (speakers t) <= length (utterances t))%nat.
Proof.
  intros t rus.
  assert (Hus : utterances t = _) by apply parse_response_utterances.
  assert (Hsp : speakers t = _) by apply parse_response_speakers.
  fold t in Hsp. fold rus in Hus.
  split; [unfold t, _parse_response;
          destruct (results_utterances response) as [[| ? ?] |]; try reflexivity;
          destruct (parse_utterances _); reflexivity |].
  split; [rewrite Hus; apply length_map |].
  split.
  { intros i ru Hi. rewrite Hus.
    change (map ?f rus) with (f <$> rus). rewrite list_lookup_fmap, Hi. reflexivity. }
  split.
  { intros s. rewrite Hsp, list_elem_of_In, in_map_iff. split.
    - intros (i & <- & Hi).
      apply list_elem_of_In, elem_of_sorted_set, elem_of_list_to_set in Hi.
      apply list_elem_of_In, in_map_iff in Hi. destruct Hi as (u & <- & Hu).
      exists u. split; [apply list_elem_of_In, Hu | reflexivity].
    - intros (u & Hu & ->). exists (speaker u). split; [reflexivity |].
      apply list_elem_of_In, elem_of_sorted_set, elem_of_list_to_set.
      apply list_elem_of_In, in_map, list_elem_of_In, Hu. }
  split.
  { rewrite Hsp. apply (NoDup_fmap_2_strong speaker_label).
    - intros a b _ _. apply speaker_label_inj.
    - apply sorted_set_NoDup. }
  rewrite Hsp, length_map.
  rewrite <- (length_map speaker (utterances t)).
  apply submseteq_length, NoDup_submseteq; [apply sorted_set_NoDup |].
  intros x Hx. apply elem_of_sorted_set, elem_of_list_to_set in Hx. exact Hx.
Qed.

Lemma parse_response_shape_witness :
  utterances (_parse_response gapped_response "talk.mp3") !! 1%nat
  = Some {| speaker := 2; speaker_name := ""; start := 2; end_ := 4; text := "Hi there" |}.
Proof.
  destruct (parse_response_shape gapped_response "talk.mp3") as (_ & _ & Hat & _).
  exact (Hat 1%nat
           {| ru_speaker := Some 2; ru_start := 2; ru_end := 4; ru_transcript := "Hi there" |}
           eq_refl).
Defined.

(** X5: a reply without utterances (none, or an empty list) gives a
    transcript without speakers and without utterances, whose plain-text
    rendering, and so the text handed to the summarizer and to the diff, is
    the full transcript text of the reply, empty when the reply has none. *)
Theorem parse_response_without_utterances (response : Response) (source : string) :
  default [] (results_utterances response) = [] ->
  let t := _parse_response response source in
  speakers t = [] /\ utterances t = [] /\
  raw_text t = default "" (alt_transcript response) /\
  format_transcript_text t = default "" (alt_transcript response) /\
  transcript_text_of t = default "" (alt_transcript response).
Proof.
  intros Hnone t.
  assert (Hus : utterances t = []).
  { unfold t. rewrite parse_response_utterances, Hnone. reflexivity. }
  assert (Hsp : speakers t = []).
  { unfold t. rewrite parse_response_speakers. fold t. rewrite Hus. simpl.
    unfold sorted_set. rewrite elements_empty. reflexivity. }
  assert (Hraw : raw_text t = default "" (alt_transcript response)).
  { unfold t, _parse_response.
    destruct (results_utterances response) as [[| ? ?] |];
      try destruct (parse_utterances _);
      simpl; destruct (alt_transcript response) as [[| ? ?] |]; reflexivity. }
  split; [exact Hsp |]. split; [exact Hus |]. split; [exact Hraw |].
  unfold transcript_text_of, format_transcript_text, format_transcript_text_lines.
  rewrite Hus. simpl. split; exact Hraw.
Qed.

Lemma parse_response_without_utterances_witness :
  format_transcript_text
    (_parse_response
       {| alt_transcript := Some "Hello there";
          metadata_duration := None;
          results_utterances := Some [] |} "talk.mp3")
  = "Hello there".
Proof.
  apply (parse_response_without_utterances
           {| alt_transcript := Some "Hello there";
              metadata_duration := None;
              results_utterances := Some [] |} "talk.mp3" eq_refl).
Defined.

(** ** Accepting every default *)





(** ** The renderers once more *)

(** X8: the plain-text rendering is [raw_text] for a transcript without
    utterances and the utterance lines joined by newlines otherwise; so the
    text [cli.py] hands to the summarizer and to the diff, which picks
    [raw_text] itself when there are no utterances, is the plain-text
    rendering in every case. *)
Theorem transcript_text_is_rendering (t : Transcript) :
  format_transcript_text t =
    match utterances t with
    | [] => raw_text t
    | us => join nl (map text_utterance_line us)
    end /\
  transcript_text_of t = format_transcript_text t.
Proof.
  unfold transcript_text_of, format_transcript_text, format_transcript_text_lines.
  destruct (utterances t) as [| u us]; [split; reflexivity |].
  rewrite append_each_map. split; reflexivity.
Qed.

Lemma markdown_summary_eq (s : Summary) (lines : list string) :
  markdown_summary s lines =
  (lines
   ++ (if decide (title s = "") then [] else [("## " ++ title s ++ nl)%string])
   ++ (if decide (summary s = "") then [] else [(summary s ++ nl)%string])
   ++ (if decide (key_points s = []) then []
       else ("### Key Points" ++ nl)%string
            :: map (fun point => ("- " ++ point)%string) (key_points s) ++ [""])
   ++ (if decide (action_items s = []) then []
       else ("### Action Items" ++ nl)%string
            :: map (fun item => ("- [ ] " ++ item)%string) (action_items s) ++ [""]))%list.
Proof.
  unfold markdown_summary, append.
  destruct (title s) as [| c0 r0] eqn:Et, (summary s) as [| c1 r1] eqn:Es,
           (key_points s) as [| k ks] eqn:Ek, (action_items s) as [| a az] eqn:Ea;
    repeat (rewrite decide_True by reflexivity);
    repeat (rewrite decide_False by discriminate);
    rewrite ?append_each_map; repeat (simpl; rewrite <- app_assoc); simpl;
    rewrite ?app_nil_r; reflexivity.
Qed.

(** X9: the lines of the markdown rendering are, in this order: the title
    line; the duration line when the duration is positive; the speakers line
    when there are speakers; for a summary, its title, its prose, its key
    points as bullets and its action items as checkboxes, each part only
    when it is not empty; the separator and the heading of the transcript
    section; and the body.  A summary whose four fields are empty renders as
    no summary does. *)
Theorem markdown_layout (stem : string -> string) (t : Transcript) (s : option Summary) :
  let summary_block :=
    match s with
    | None => []
    | Some s =>
        ((if decide (title s = "") then [] else [("## " ++ title s ++ nl)%string])
         ++ (if decide (summary s = "") then [] else [(summary s ++ nl)%string])
         ++ (if decide (key_points s = []) then []
             else ("### Key Points" ++ nl)%string
                  :: map (fun point => ("- " ++ point)%string) (key_points s) ++ [""])
         ++ (if decide (action_items s = []) then []
             else ("### Action Items" ++ nl)%string
                  :: map (fun item => ("- [ ] " ++ item)%string) (action_items s)
                  ++ [""]))%list
    end in
  format_transcript_markdown_lines stem t s =
    ([("# Transcript: " ++ stem (source_file t) ++ nl)%string]
     ++ (if Qle_bool (duration t) 0 then []
         else [("**Duration:** " ++ format_timestamp (duration t) ++ nl)%string])
     ++ (if decide (speakers t = []) then []
         else [("**Speakers:** " ++ join ", " (speakers t) ++ nl)%string])
     ++ summary_block
     ++ [("---" ++ nl)%string; ("## Transcript" ++ nl)%string]
     ++ match utterances t with
        | [] => [raw_text t]
        | us => map markdown_utterance_line us
        end)%list /\
  format_transcript_markdown stem t
    (Some {| title := ""; summary := ""; key_points := []; action_items := [] |})
  = format_transcript_markdown stem t None.
Proof.
  intros summary_block. split; [| reflexivity].
  unfold format_transcript_markdown_lines, summary_block, append.
  destruct s as [s |]; [rewrite markdown_summary_eq |];
    destruct (Qle_bool (duration t) 0), (speakers t) as [| sp sps] eqn:Es,
             (utterances t) as [| u us] eqn:Eu;
    repeat (rewrite decide_True by reflexivity);
    repeat (rewrite decide_False by discriminate);
    rewrite ?append_each_map; repeat (simpl; rewrite <- app_assoc); simpl;
    rewrite ?app_nil_r; reflexivity.
Qed.

Lemma diff_bullets_eq (heading : string) (items : list string) (lines : list string) :
  diff_bullets heading items lines =
  (lines ++ if decide (items = []) then []
            else (heading ++ nl)%string
                 :: map (fun item => ("- " ++ item)%string) items ++ [""])%list.
Proof.
  unfold diff_bullets. destruct items as [| a g].
  - rewrite decide_True by reflexivity. symmetry. apply app_nil_r.
  - rewrite decide_False by discriminate.
    unfold append. rewrite append_each_map, <- !app_assoc. reflexivity.
Qed.

(** X10: the lines of the course diff are the title line, then the section
    of the additions, the section of the omissions and the section of the
    action items, each only when it has entries; every action item has its
    line, whatever its priority, and the line carries the priority in
    brackets exactly when the priority is not ["normal"].  A diff without
    entries renders as the title line alone. *)
Theorem course_diff_layout (diff : Diff.CourseDiff) (week : string) :
  let bullets := fun (heading : string) (items : list string) =>
    if decide (items = []) then []
    else ((heading ++ nl)%string
          :: map (fun item => ("- " ++ item)%string) items ++ [""])%list in
  let title :=
    (if decide (week = "") then "# Course Diff" else "# Course Diff — Week " ++ week) in
  format_course_diff_markdown diff week
    = join nl (format_course_diff_markdown_lines diff week) /\
  format_course_diff_markdown_lines diff week =
    ([(title ++ nl)%string]
     ++ bullets "## In Video Only (Additions)" (Diff.additions diff)
     ++ bullets "## In Text Only (Omissions)" (Diff.omissions diff)
     ++ (if decide (Diff.action_items diff = []) then []
         else ("## Action Items" ++ nl)%string
              :: map diff_item_line (Diff.action_items diff) ++ [""]))%list /\
  (forall a, diff_item_line a =
     "- [ ] " ++ description a ++
     if decide (priority a = "normal") then "" else " [" ++ priority a ++ "]") /\
  (forall combined : string,
     format_course_diff_markdown
       {| Diff.additions := []; Diff.omissions := []; Diff.combined_text := combined;
          Diff.action_items := [] |} week
     = title ++ nl).
Proof.
  intros bullets title. split; [reflexivity |]. split; [| split].
  - unfold format_course_diff_markdown_lines. rewrite !diff_bullets_eq.
    subst bullets title. unfold append.
    destruct (Diff.action_items diff) as [| a az] eqn:Ea.
    + destruct (decide (@nil ActionItem = [])) as [_ | Hn]; [| contradiction].
      rewrite !app_nil_r, <- !app_assoc. destruct week; reflexivity.
    + destruct (decide (a :: az = [])) as [Hn | _]; [discriminate Hn |].
      rewrite append_each_map, <- !app_assoc. destruct week; reflexivity.
  - intros a. unfold diff_item_line.
    destruct (String.eqb_spec (priority a) "normal") as [E | E].
    + rewrite decide_True by exact E. reflexivity.
    + rewrite decide_False by exact E. reflexivity.
  - intros combined. subst title. destruct week; reflexivity.
Qed.

Lemma filter_filter_implied {A : Type} (f g : A -> bool) (l : list A) :
  (forall x, f x = true -> g x = true) ->
  List.filter f (List.filter g l) = List.filter f l.
Proof.
  intros Himp. induction l as [| x l IH]; simpl; [reflexivity |].
  destruct (g x) eqn:Eg; simpl.
  - rewrite IH. reflexivity.
  - destruct (f x) eqn:Ef; [rewrite (Himp x Ef) in Eg; discriminate | exact IH].
Qed.

(** X11: an item whose priority is none of ["high"], ["normal"] and ["low"]
    does not appear in the weekly digest: the digest of a list is the digest
    of its items with one of the three priorities, and a list without such
    items renders as the title line alone. *)
Theorem weekly_digest_drops_other_priorities (items : list ActionItem) (week : string) :
  let known := fun a =>
    has_priority "high" a || has_priority "normal" a || has_priority "low" a in
  format_weekly_todo_markdown items week
    = format_weekly_todo_markdown (List.filter known items) week /\
  (List.filter known items = [] ->
   format_weekly_todo_markdown items week =
     (if decide (week = "") then "# Weekly To-Do" else "# Weekly To-Do — Week " ++ week)
     ++ nl).
Proof.
  intros known.
  assert (Heq : format_weekly_todo_markdown items week
                = format_weekly_todo_markdown (List.filter known items) week).
  { unfold format_weekly_todo_markdown, format_weekly_todo_markdown_lines.
    rewrite !(filter_filter_implied _ known); [reflexivity | |  |];
      intros x Hx; unfold known; rewrite Hx; simpl;
      rewrite ?orb_true_r; reflexivity. }
  split; [exact Heq |].
  intros Hnone. rewrite Heq, Hnone. destruct week; reflexivity.
Qed.

Lemma weekly_digest_drops_other_priorities_witness :
  format_weekly_todo_markdown
    [ {| description := "Call the venue"; source := ""; priority := "urgent" |} ] "2"
  = "# Weekly To-Do — Week 2" ++ nl.
Proof.
  apply (weekly_digest_drops_other_priorities
           [ {| description := "Call the venue"; source := ""; priority := "urgent" |} ]
           "2").
  reflexivity.
Defined.

(** ** The code fence of a reply *)

Lemma split_nonempty (sep : ascii) (s : string) : split sep s <> [].
Proof.
  destruct s as [| c rest]; simpl; [discriminate |].
  destruct (Ascii.eqb c sep); [discriminate |].
  destruct (split sep rest); discriminate.
Qed.

Lemma join_cons (sep x : string) (xs : list string) :
  xs <> [] -> join sep (x :: xs) = x ++ sep ++ join sep xs.
Proof. destruct xs; [contradiction | reflexivity]. Qed.

(** Joining the pieces of a split with the separator gives the string back. *)
Lemma join_split (sep : ascii) (s : string) :
  join (String sep "") (split sep s) = s.
Proof.
  induction s as [| c rest IH]; simpl; [reflexivity |].
  destruct (Ascii.eqb_spec c sep) as [-> | Hne].
  - rewrite join_cons by apply split_nonempty. rewrite IH. reflexivity.
  - pose proof (split_nonempty sep rest) as Hn.
    destruct (split sep rest) as [| piece pieces]; [contradiction |].
    destruct pieces as [| p ps].
    + simpl in *. rewrite IH. reflexivity.
    + rewrite join_cons in IH by discriminate.
      rewrite join_cons by discriminate. rewrite <- IH. reflexivity.
Qed.

Lemma split_app (sep : ascii) (a b : string) :
  split sep (a ++ String sep b) = (split sep a ++ split sep b)%list.
Proof.
  induction a as [| c a IH]; simpl.
  - rewrite Ascii.eqb_refl. reflexivity.
  - destruct (Ascii.eqb c sep); rewrite IH; [reflexivity |].
    pose proof (split_nonempty sep a) as Hn.
    destruct (split sep a); [contradiction | reflexivity].
Qed.

Lemma string_app_assoc (a b c : string) : (a ++ b) ++ c = a ++ b ++ c.
Proof.
  induction a as [| x a IH]; [reflexivity |].
  change (String x ((a ++ b) ++ c) = String x (a ++ b ++ c)).
  f_equal. exact IH.
Qed.

Lemma split_one_line_cons (sep c : ascii) (s : string) :
  Ascii.eqb c sep = false -> split sep s = [s] -> split sep (String c s) = [String c s].
Proof. intros Hc Hs. simpl. rewrite Hc, Hs. reflexivity. Qed.

Lemma prefix_fence (rest : string) : String.prefix "```" ("```" ++ rest) = true.
Proof. destruct rest; reflexivity. Qed.

(** X12: a reply wrapped in a code fence loses exactly its wrapper: when the
    first line is the fence with any one-line tag and the last line is any
    one line, what remains is the text between them, newlines included. *)
Theorem strip_code_fence_unwraps (tag body closing : string) :
  split (ascii_of_nat 10) tag = [tag] ->
  split (ascii_of_nat 10) closing = [closing] ->
  strip_code_fence ("```" ++ tag ++ nl ++ body ++ nl ++ closing) = body.
Proof.
  intros Htag Hclosing. unfold strip_code_fence.
  rewrite prefix_fence. cbv zeta.
  replace ("```" ++ tag ++ nl ++ body ++ nl ++ closing)
    with (("```" ++ tag) ++ String (ascii_of_nat 10) (body ++ String (ascii_of_nat 10) closing))
    by (rewrite string_app_assoc; reflexivity).
  rewrite !split_app, Hclosing.
  assert (Hfirst : split (ascii_of_nat 10) ("```" ++ tag) = ["```" ++ tag]).
  { change ("```" ++ tag) with (String "`" (String "`" (String "`" tag))).
    repeat (apply split_one_line_cons; [reflexivity |]). exact Htag. }
  rewrite Hfirst. unfold slice_1_m1. simpl.
  rewrite removelast_last. apply join_split.
Qed.

Lemma strip_code_fence_unwraps_witness :
  strip_code_fence ("```" ++ "json" ++ nl ++ ("{" ++ nl ++ "}") ++ nl ++ "```")
  = "{" ++ nl ++ "}".
Proof.
  apply (strip_code_fence_unwraps "json" ("{" ++ nl ++ "}") "```"); reflexivity.
Defined.

(** X13: a reply that starts with a fence and has at most two lines (for
    instance a fenced reply written on one line) is reduced to the empty
    string. *)
Theorem strip_code_fence_short_reply (cleaned : string) :
  String.prefix "```" cleaned = true ->
  (length (split (ascii_of_nat 10) cleaned) <= 2)%nat ->
  strip_code_fence cleaned = "".
Proof.
  intros Hfence Hlen. unfold strip_code_fence. rewrite Hfence.
  destruct (split (ascii_of_nat 10) cleaned) as [| l0 [| l1 [| l2 ls]]];
    try reflexivity.
  simpl in Hlen. lia.
Qed.

Lemma strip_code_fence_short_reply_witness :
  strip_code_fence "```json {} ```" = "".
Proof.
  apply strip_code_fence_short_reply; [reflexivity | vm_compute; lia].
Defined.

(** ** [audio.py] *)

Lemma extensions_disjoint (x : string) :
  x ∈ VIDEO_EXTENSIONS -> x ∉ AUDIO_EXTENSIONS.
Proof.
  unfold VIDEO_EXTENSIONS, AUDIO_EXTENSIONS. rewrite !elem_of_union, !elem_of_singleton.
  intros Hv Ha.
  repeat (destruct Hv as [Hv | Hv]); subst x;
    repeat (destruct Ha as [Ha | Ha]); discriminate Ha.
Qed.

(** X14: no path is both a video file and an audio file, whatever its
    suffix and whatever the case of its letters. *)
Theorem video_and_audio_exclusive
    (suffix lower : string -> string) (path : string) :
  is_video_file suffix lower path && is_audio_file suffix lower path = false.
Proof.
  unfold is_video_file, is_audio_file.
  destruct (bool_decide_reflect (lower (suffix path) ∈ VIDEO_EXTENSIONS)) as [Hv | Hv];
    [| reflexivity].
  simpl. apply bool_decide_eq_false, extensions_disjoint, Hv.
Qed.



(** ** Timestamps tell seconds apart *)

(** [format_timestamp] in terms of the whole seconds, for every input. *)
Lemma format_timestamp_floor (seconds : Q) :
  format_timestamp seconds =
    if 0 <? Qfloor seconds / 3600
    then fmt_02d (Qfloor seconds / 3600) ++ ":"
         ++ fmt_02d (Qfloor seconds mod 3600 / 60) ++ ":"
         ++ fmt_02d (Qfloor seconds mod 60)
    else fmt_02d (Qfloor seconds mod 3600 / 60) ++ ":" ++ fmt_02d (Qfloor seconds mod 60).
Proof.
  unfold format_timestamp.
  destruct (timestamp_components seconds) as (-> & -> & ->). reflexivity.
Qed.

Lemma fmt_02d_inj (a b : Z) :
  0 <= a < 100 -> 0 <= b < 100 -> fmt_02d a = fmt_02d b -> a = b.
Proof.
  intros Ha Hb Heq.
  assert (Hall :
    forallb (fun i => forallb (fun j => implb (String.eqb (fmt_02d i) (fmt_02d j)) (i =? j))
                        (map Z.of_nat (seq 0 100)))
            (map Z.of_nat (seq 0 100)) = true) by (vm_compute; reflexivity).
  assert (Hin : forall k, 0 <= k < 100 -> In k (map Z.of_nat (seq 0 100))).
  { intros k Hk. apply in_map_iff. exists (Z.to_nat k). split; [lia | apply in_seq; lia]. }
  rewrite forallb_forall in Hall. specialize (Hall a (Hin a Ha)).
  rewrite forallb_forall in Hall. specialize (Hall b (Hin b Hb)).
  rewrite Heq, String.eqb_refl in Hall. simpl in Hall. lia.
Qed.

Lemma string_length_app (a b : string) :
  String.length (a ++ b) = (String.length a + String.length b)%nat.
Proof.
  induction a as [| c a IH]; [reflexivity |].
  change (S (String.length (a ++ b)) = S (String.length a + String.length b)).
  f_equal. exact IH.
Qed.

Lemma string_app_inj (a a' b b' : string) :
  String.length a = String.length a' -> a ++ b = a' ++ b' -> a = a' /\ b = b'.
Proof.
  revert a'. induction a as [| c a IH]; intros [| c' a'] Hlen Heq;
    try discriminate Hlen.
  - split; [reflexivity | exact Heq].
  - change (String c (a ++ b) = String c' (a' ++ b')) in Heq.
    injection Heq as -> Heq. injection Hlen as Hlen.
    destruct (IH a' Hlen Heq) as [-> ->]. split; reflexivity.
Qed.

(** X21: below one hundred hours, two times are shown alike only when they
    lie in the same second. *)
Theorem format_timestamp_tells_seconds_apart (s s' : Q) :
  (0 <= s)%Q -> (0 <= s')%Q ->
  Qfloor s < 360000 -> Qfloor s' < 360000 ->
  format_timestamp s = format_timestamp s' ->
  Qfloor s = Qfloor s'.
Proof.
  intros Hs Hs' Hn Hn'. rewrite !format_timestamp_floor.
  pose proof (Qfloor_nonneg s Hs) as H0. pose proof (Qfloor_nonneg s' Hs') as H0'.
  set (n := Qfloor s) in *. set (n' := Qfloor s') in *.
  assert (Hh : 0 <= n / 3600 < 100) by (split; [apply Z.div_pos | apply Z.div_lt_upper_bound]; lia).
  assert (Hh' : 0 <= n' / 3600 < 100) by (split; [apply Z.div_pos | apply Z.div_lt_upper_bound]; lia).
  assert (Hm : 0 <= n mod 3600 / 60 < 60).
  { pose proof (Z.mod_pos_bound n 3600 ltac:(lia)).
    split; [apply Z.div_pos | apply Z.div_lt_upper_bound]; lia. }
  assert (Hm' : 0 <= n' mod 3600 / 60 < 60).
  { pose proof (Z.mod_pos_bound n' 3600 ltac:(lia)).
    split; [apply Z.div_pos | apply Z.div_lt_upper_bound]; lia. }
  pose proof (Z.mod_pos_bound n 60 ltac:(lia)) as Hsec.
  pose proof (Z.mod_pos_bound n' 60 ltac:(lia)) as Hsec'.
  assert (Hw : forall k, 0 <= k < 100 -> String.length (fmt_02d k) = 2%nat)
    by exact fmt_02d_width.
  assert (Hrec : forall k, 0 <= k ->
            k = 3600 * (k / 3600) + 60 * (k mod 3600 / 60) + k mod 60).
  { intros k Hk.
    pose proof (Z.div_mod k 3600 ltac:(lia)).
    pose proof (Z.div_mod (k mod 3600) 60 ltac:(lia)).
    assert ((k mod 3600) mod 60 = k mod 60).
    { apply Z.mod_mod_divide. exists 60. reflexivity. }
    lia. }
  destruct (Z.ltb_spec 0 (n / 3600)) as [Hlong | Hshort];
    destruct (Z.ltb_spec 0 (n' / 3600)) as [Hlong' | Hshort']; intros Heq.
  - apply string_app_inj in Heq; [| rewrite !Hw by lia; reflexivity].
    destruct Heq as [Eh Heq]. apply fmt_02d_inj in Eh; [| lia | lia].
    apply (string_app_inj ":" ":") in Heq; [| reflexivity]. destruct Heq as [_ Heq].
    apply string_app_inj in Heq; [| rewrite !Hw by lia; reflexivity].
    destruct Heq as [Em Heq]. apply fmt_02d_inj in Em; [| lia | lia].
    apply (string_app_inj ":" ":") in Heq; [| reflexivity]. destruct Heq as [_ Es].
    apply fmt_02d_inj in Es; [| lia | lia].
    rewrite (Hrec n H0), (Hrec n' H0'). lia.
  - exfalso. apply (f_equal String.length) in Heq.
    rewrite !string_length_app, !Hw in Heq by lia. simpl in Heq. lia.
  - exfalso. apply (f_equal String.length) in Heq.
    rewrite !string_length_app, !Hw in Heq by lia. simpl in Heq. lia.
  - apply string_app_inj in Heq; [| rewrite !Hw by lia; reflexivity].
    destruct Heq as [Em Heq]. apply fmt_02d_inj in Em; [| lia | lia].
    apply (string_app_inj ":" ":") in Heq; [| reflexivity]. destruct Heq as [_ Es].
    apply fmt_02d_inj in Es; [| lia | lia].
    rewrite (Hrec n H0), (Hrec n' H0'). lia.
Qed.

Lemma format_timestamp_tells_seconds_apart_witness :
  Qfloor (7 # 2) = Qfloor (10 # 3).
Proof.
  apply (format_timestamp_tells_seconds_apart (7 # 2) (10 # 3));
    try discriminate; reflexivity.
Defined.

(** ** The function [batch] *)

Section BatchFacts.

Variable RawItem : Type.
Variable path_name : string -> string.
Variable markup_error : string -> bool.
Variable w : World RawItem.

Lemma print_bind {A : Type} (text : string) (k : unit -> cmd (event RawItem) A) :
  (print RawItem markup_error text ≫= k) =
  if markup_error text then (Uncaught "MarkupError", [])
  else (fst (k tt), Print RawItem text :: snd (k tt)).
Proof.
  unfold print. destruct (markup_error text); [reflexivity |].
  unfold emit, mbind, cmd_bind. destruct (k tt). reflexivity.
Qed.

(** The loop over files that are read or skipped without an exception. *)
Lemma collect_items_prefix (before rest : list string) (acc : list RawItem) :
  (forall jf, jf ∈ before ->
     (forall e, read_json RawItem w jf <> ReadRaised RawItem e) /\
     markup_error (read_line RawItem path_name w jf) = false) ->
  collect_items RawItem path_name markup_error w (before ++ rest) acc =
  (fst (collect_items RawItem path_name markup_error w rest
          (acc ++ concat (map (read_items RawItem w) before))),
   (map (fun jf => Print RawItem (read_line RawItem path_name w jf)) before
    ++ snd (collect_items RawItem path_name markup_error w rest
              (acc ++ concat (map (read_items RawItem w) before))))%list).
Proof.
  revert acc. induction before as [| jf before IH]; intros acc Hall.
  - simpl. rewrite app_nil_r. destruct (collect_items _ _ _ _ rest acc). reflexivity.
  - destruct (Hall jf ltac:(left)) as [Hraised Hline].
    assert (Hrest : forall jf', jf' ∈ before ->
              (forall e, read_json RawItem w jf' <> ReadRaised RawItem e) /\
              markup_error (read_line RawItem path_name w jf') = false)
      by (intros jf' Hin; apply Hall; right; exact Hin).
    assert (Hi : read_items RawItem w jf =
                 match read_json RawItem w jf with ReadItems _ items => items | _ => [] end)
      by reflexivity.
    assert (Hl : read_line RawItem path_name w jf =
                 match read_json RawItem w jf with
                 | ReadItems _ items =>
                     "  " ++ path_name jf ++ ": " ++ str (len items) ++ " items"
                 | ReadCaught _ e =>
                     "  [yellow]Skipping " ++ path_name jf ++ ": " ++ e ++ "[/yellow]"
                 | ReadRaised _ _ => ""
                 end)
      by reflexivity.
    rewrite Hl in Hline. simpl. rewrite Hi, Hl. clear Hi Hl.
    destruct (read_json RawItem w jf) as [items | e | e] eqn:Er.
    + rewrite print_bind, Hline. rewrite (IH _ Hrest). simpl.
      rewrite <- !app_assoc. reflexivity.
    + rewrite print_bind, Hline. rewrite (IH _ Hrest). simpl.
      rewrite ?app_nil_r. reflexivity.
    + exfalso. exact (Hraised e eq_refl).
Qed.



End BatchFacts.

(** X18: in the loop of [batch] that reads the sidecar files, a file whose
    reading raises [JSONDecodeError] or [OSError] is skipped and the loop
    goes on: when no file raises another exception and every line can be
    printed, the loop returns the items of the files that were read, in the
    order of the files, after printing one line per file.  The first file
    whose reading raises another exception ends the loop, and the function,
    with that exception. *)
Theorem collect_items_skips_unreadable
    (RawItem : Type) (path_name : string -> string) (markup_error : string -> bool)
    (w : World RawItem) :
  (forall (files : list string) (acc : list RawItem),
     (forall jf, jf ∈ files ->
        (forall e, read_json RawItem w jf <> ReadRaised RawItem e) /\
        markup_error (read_line RawItem path_name w jf) = false) ->
     collect_items RawItem path_name markup_error w files acc =
     (Done (acc ++ concat (map (read_items RawItem w) files))%list,
      map (fun jf => Print RawItem (read_line RawItem path_name w jf)) files)) /\
  (forall (before after : list string) (jf e : string) (acc : list RawItem),
     (forall jf', jf' ∈ before ->
        (forall e', read_json RawItem w jf' <> ReadRaised RawItem e') /\
        markup_error (read_line RawItem path_name w jf') = false) ->
     read_json RawItem w jf = ReadRaised RawItem e ->
     collect_items RawItem path_name markup_error w (before ++ jf :: after) acc =
     (Uncaught e,
      map (fun jf' => Print RawItem (read_line RawItem path_name w jf')) before)).
Proof.
  split.
  - intros files acc Hall.
    rewrite <- (app_nil_r files) at 1.
    rewrite (collect_items_prefix RawItem path_name markup_error w files [] acc Hall).
    simpl. rewrite app_nil_r. reflexivity.
  - intros before after jf e acc Hall Hraised.
    rewrite (collect_items_prefix RawItem path_name markup_error w before _ acc Hall).
    simpl. rewrite Hraised. simpl. rewrite app_nil_r. reflexivity.
Qed.

Lemma collect_items_skips_unreadable_witness :
  collect_items unit (fun p => p) (fun _ => false)
    {| path_exists := fun _ => true;
       glob := fun _ _ => [];
       read_json := fun jf => if String.eqb jf "a_actions.json"
                              then ReadCaught unit "Expecting value"
                              else ReadItems unit [tt];
       mkdir_error := fun _ => false;
       write_error := fun _ => false;
       collaborator := fun _ _ => inl "APIConnectionError" |}
    ["a_actions.json"; "b_actions.json"] []
  = (Done [tt],
     [Print unit "  [yellow]Skipping a_actions.json: Expecting value[/yellow]";
      Print unit "  b_actions.json: 1 items"]).
Proof.
  refine (proj1 (collect_items_skips_unreadable unit (fun p => p) (fun _ => false) _)
            ["a_actions.json"; "b_actions.json"] [] _).
  apply Forall_forall. repeat constructor; intros e; discriminate.
Defined.








(** ** The order in which [batch] reads the files *)

Lemma string_compare_le_trans (a b c : string) :
  String.compare a b <> Gt -> String.compare b c <> Gt -> String.compare a c <> Gt.
Proof.
  revert b c. induction a as [| x a IH]; intros [| y b] [| z c]; simpl; try congruence.
  unfold Ascii.compare.
  destruct (N.compare_spec (N_of_ascii x) (N_of_ascii y)) as [Hxy | Hxy | Hxy];
    destruct (N.compare_spec (N_of_ascii y) (N_of_ascii z)) as [Hyz | Hyz | Hyz];
    destruct (N.compare_spec (N_of_ascii x) (N_of_ascii z)) as [Hxz | Hxz | Hxz];
    try congruence; try lia.
  apply IH.
Qed.

Lemma leb_le (a b : string) : Is_true (String.leb a b) <-> String.compare a b <> Gt.
Proof.
  unfold String.leb. destruct (String.compare a b); simpl; split; intros H;
    try exact I; try discriminate; try contradiction.
Qed.

#[local] Instance leb_transitive : Transitive (fun a b => Is_true (String.leb a b)).
Proof.
  intros a b c Hab Hbc. apply leb_le.
  apply (string_compare_le_trans a b c); apply leb_le; assumption.
Qed.

#[local] Instance leb_antisymmetric : AntiSymm (=) (fun a b => Is_true (String.leb a b)).
Proof.
  intros a b Hab Hba. apply String.leb_antisym; apply Is_true_true; assumption.
Qed.

#[local] Instance leb_total : Total (fun a b => Is_true (String.leb a b)).
Proof.
  intros a b. destruct (String.leb_total a b) as [H | H]; [left | right];
    apply Is_true_true; exact H.
Qed.

Lemma sorted_paths_Permutation (l l' : list string) :
  l ≡ₚ l' -> sorted_paths l = sorted_paths l'.
Proof.
  intros Hperm. unfold sorted_paths.
  apply (Sorted_unique (fun a b => Is_true (String.leb a b))).
  - apply Sorted_merge_sort; apply _.
  - apply Sorted_merge_sort; apply _.
  - rewrite !merge_sort_Permutation. exact Hperm.
Qed.

(** X20: the function [batch] does not depend on the order in which the
    directory lists the sidecar files: with the same files listed in another
    order, it ends in the same way after the same effects. *)
Theorem batch_listing_order
    (RawItem : Type) (path_name path_parent : string -> string)
    (path_join : string -> string -> string) (markup_error : string -> bool)
    (w : World RawItem) (listing : string -> string -> list string)
    (directory : string) (output : option string) (week : string) :
  listing directory "*_actions.json" ≡ₚ glob RawItem w directory "*_actions.json" ->
  batch RawItem path_name path_parent path_join markup_error
    {| path_exists := path_exists RawItem w;
       glob := listing;
       read_json := read_json RawItem w;
       mkdir_error := mkdir_error RawItem w;
       write_error := write_error RawItem w;
       collaborator := collaborator RawItem w |}
    directory output week
  = batch RawItem path_name path_parent path_join markup_error w directory output week.
Proof.
  intros Hperm. unfold batch. simpl.
  rewrite (sorted_paths_Permutation _ _ Hperm).
  destruct (path_exists RawItem w directory); [| reflexivity]. simpl.
  generalize (sorted_paths (glob RawItem w directory "*_actions.json")) as json_files.
  intros json_files.
  assert (Hloop : forall files acc,
            collect_items RawItem path_name markup_error
              {| path_exists := path_exists RawItem w;
                 glob := listing;
                 read_json := read_json RawItem w;
                 mkdir_error := mkdir_error RawItem w;
                 write_error := write_error RawItem w;
                 collaborator := collaborator RawItem w |} files acc
            = collect_items RawItem path_name markup_error w files acc).
  { induction files as [| jf files IH]; intros acc; simpl; [reflexivity |].
    destruct (read_json RawItem w jf); rewrite ?IH; reflexivity. }
  rewrite Hloop. reflexivity.
Qed.

Lemma batch_listing_order_witness :
  batch unit (fun p => p) (fun p => p) (fun d n => d ++ "/" ++ n) (fun _ => false)
    {| path_exists := fun _ => true;
       glob := fun _ _ => ["b_actions.json"; "a_actions.json"];
       read_json := fun _ => ReadItems unit [tt];
       mkdir_error := fun _ => false;
       write_error := fun _ => false;
       collaborator := fun _ _ => inl "APIConnectionError" |}
    "notes" None ""
  = batch unit (fun p => p) (fun p => p) (fun d n => d ++ "/" ++ n) (fun _ => false)
      {| path_exists := fun _ => true;
         glob := fun _ _ => ["a_actions.json"; "b_actions.json"];
         read_json := fun _ => ReadItems unit [tt];
         mkdir_error := fun _ => false;
         write_error := fun _ => false;
         collaborator := fun _ _ => inl "APIConnectionError" |}
      "notes" None "".
Proof.
  apply (batch_listing_order unit (fun p => p) (fun p => p) (fun d n => d ++ "/" ++ n)
           (fun _ => false)
           {| path_exists := fun _ => true;
              glob := fun _ _ => ["a_actions.json"; "b_actions.json"];
              read_json := fun _ => ReadItems unit [tt];
              mkdir_error := fun _ => false;
              write_error := fun _ => false;
              collaborator := fun _ _ => inl "APIConnectionError" |}
           (fun _ _ => ["b_actions.json"; "a_actions.json"]) "notes" None "").
  apply perm_swap.
Defined.
(** ** The function [course] *)

Lemma cmd_uncaught_bind {E A B : Type} (e : string) (k : A -> cmd E B) :
  ((raise_uncaught e : cmd E A) ≫= k) = raise_uncaught e.
Proof. reflexivity. Qed.

Lemma try_finally_eq {E A : Type} (body : cmd E A) (cleanup : cmd E unit) :
  try_finally body cleanup =
  (match fst cleanup with
   | Done _ => fst body
   | Exit code => Exit code
   | Uncaught e => Uncaught e
   end, (snd body ++ snd cleanup)%list).
Proof. unfold try_finally. destruct body, cleanup. reflexivity. Qed.

Lemma filter_tool_events (f : course_event -> bool) (log : list tool_event) :
  (forall e, f (CTool e) = false) -> List.filter f (map CTool log) = [].
Proof.
  intros Hf. induction log as [| e log IH]; simpl; [reflexivity |].
  rewrite Hf. exact IH.
Qed.




(** X17: the files the function [course] writes.  It writes nothing, or the
    rendered diff to [stem_diff.md], or that file and then the action items
    to [stem_actions.json], both in the output directory and both from one
    reply of the diff collaborator for the text of the course file; it
    writes nothing else.  When it returns it has written both files; it
    leaves through [typer.Exit] only with code 1 and then has written
    nothing.  The action items of the second file are those of the diff, in
    order, each with the name of the video as its source. *)
Theorem course_writes
    (suffix stem name parent : string -> string) (path_join : string -> string -> string)
    (lower strip : string -> string) (json_dumps : list ActionItem -> string)
    (markup_error : string -> bool)
    (w : CourseWorld) (video text output week model language : string) :
  let r := course suffix stem name parent path_join lower strip json_dumps markup_error
             w video text output week model language in
  let md_file := path_join output (stem video ++ "_diff.md") in
  let json_file := path_join output (stem video ++ "_actions.json") in
  let written := List.filter is_cwrite (snd r) in
  (written = [] \/
   exists (transcript_text course_text : string) (diff : Diff.CourseDiff),
     cw_read_text w text = inr course_text /\
     cw_diff w transcript_text course_text = inr diff /\
     (written = [CWrite md_file (format_course_diff_markdown diff week)] \/
      written = [CWrite md_file (format_course_diff_markdown diff week);
                 CWrite json_file
                   (json_dumps (actions_data_of name video (Diff.action_items diff)))])) /\
  (fst r = Done tt ->
   exists (transcript_text course_text : string) (diff : Diff.CourseDiff),
     cw_read_text w text = inr course_text /\
     cw_diff w transcript_text course_text = inr diff /\
     written = [CWrite md_file (format_course_diff_markdown diff week);
                CWrite json_file
                  (json_dumps (actions_data_of name video (Diff.action_items diff)))]) /\
  (forall code, fst r = Exit code -> code = 1 /\ written = []) /\
  (forall actions : list ActionItem,
     map description (actions_data_of name video actions) = map description actions /\
     map priority (actions_data_of name video actions) = map priority actions /\
     map source (actions_data_of name video actions) = map (fun _ => name video) actions).
Proof.
  cbv zeta.
  assert (Hdata : forall actions : list ActionItem,
     map description (actions_data_of name video actions) = map description actions /\
     map priority (actions_data_of name video actions) = map priority actions /\
     map source (actions_data_of name video actions) = map (fun _ => name video) actions).
  { intros actions. unfold actions_data_of. rewrite !map_map. repeat split. }
  unfold course.
  destruct (cw_exists w video); cbn [negb].
  2:{ unfold cprint. destruct (markup_error _); simpl;
        (split; [left; reflexivity | split; [discriminate | split; [| exact Hdata]]]);
        intros code Hcode;
        first [discriminate | injection Hcode as <-; split; reflexivity]. }
  destruct (cw_exists w text); cbn [negb].
  2:{ unfold cprint. destruct (markup_error _); simpl;
        (split; [left; reflexivity | split; [discriminate | split; [| exact Hdata]]]);
        intros code Hcode;
        first [discriminate | injection Hcode as <-; split; reflexivity]. }
  unfold prepare.
  destruct (prepare_audio suffix stem name path_join lower strip (cw_tools w) video)
    as [[e | [audio_path is_temp]] tool_log];
    destruct (cw_read_text w text) as [e' | course_text] eqn:Eread;
    unfold cprint, cmkdir, cwrite, or_raise, try_finally, mbind, cmd_bind, emit,
      raise_exit, raise_uncaught, mret, cmd_ret;
    cbv beta iota zeta;
    repeat match goal with
           | |- context [match ?x with _ => _ end] =>
               lazymatch x with
               | context [match _ with _ => _ end] => fail
               | _ => destruct x eqn:?; cbv beta iota zeta
               end
           end;
    cbn [fst snd app List.filter is_cwrite];
    rewrite ?List.filter_app, ?(filter_tool_events is_cwrite) by reflexivity;
    cbn [fst snd app List.filter is_cwrite];
    (split; [| split; [| split; [| exact Hdata]]]);
    try discriminate;
    try (left; reflexivity);
    try (right; do 3 eexists; split; [reflexivity |]; split; [eassumption |];
         first [left; reflexivity | right; reflexivity]);
    try (intros _; do 3 eexists; split; [reflexivity |]; split; [eassumption |];
         reflexivity).
Qed.

Lemma course_writes_witness :
  List.filter is_cwrite
    (snd (course (fun p => ".mp3") (fun p => "talk") (fun p => p) (fun p => "/tmp")
            (fun d n => d ++ "/" ++ n) (fun x => x) (fun x => x) (fun _ => "[]")
            (fun _ => false)
            {| cw_exists := fun _ => true;
               cw_mkdir_error := fun _ => false;
               cw_write_error := fun _ => false;
               cw_tools := {| which := fun _ => false; run := fun _ => (1, "", "");
                              mkdtemp := fun p => p |};
               cw_listen := fun _ _ _ =>
                 inr {| alt_transcript := Some "hello"; metadata_duration := None;
                        results_utterances := None |};
               cw_read_text := fun _ => inr "notes";
               cw_diff := fun _ _ =>
                 inr {| Diff.additions := []; Diff.omissions := [];
                        Diff.combined_text := "notes"; Diff.action_items := [] |} |}
            "talk.mp3" "notes.txt" "out" "1" "nova-2" "en"))
  = [CWrite "out/talk_diff.md"
       (format_course_diff_markdown
          {| Diff.additions := []; Diff.omissions := []; Diff.combined_text := "notes";
             Diff.action_items := [] |} "1");
     CWrite "out/talk_actions.json" "[]"].
Proof.
  destruct (course_writes (fun p => ".mp3") (fun p => "talk") (fun p => p) (fun p => "/tmp")
              (fun d n => d ++ "/" ++ n) (fun x => x) (fun x => x) (fun _ => "[]")
              (fun _ => false)
              {| cw_exists := fun _ => true;
                 cw_mkdir_error := fun _ => false;
                 cw_write_error := fun _ => false;
                 cw_tools := {| which := fun _ => false; run := fun _ => (1, "", "");
                                mkdtemp := fun p => p |};
                 cw_listen := fun _ _ _ =>
                   inr {| alt_transcript := Some "hello"; metadata_duration := None;
                        results_utterances := None |};
                 cw_read_text := fun _ => inr "notes";
                 cw_diff := fun _ _ =>
                   inr {| Diff.additions := []; Diff.omissions := [];
                          Diff.combined_text := "notes"; Diff.action_items := [] |} |}
              "talk.mp3" "notes.txt" "out" "1" "nova-2" "en") as (_ & Hdone & _).
  destruct (Hdone eq_refl) as (transcript_text & course_text & diff & _ & Hdiff & Hwritten).
  rewrite Hwritten. injection Hdiff as <-. reflexivity.
Defined.
